(** * rothTouchline: the wire codec of [rothServer.go]

    A shallow embedding of the Go package [roth] (file [rothServer.go]):
    the read-request builder and the response decoder of [GetSensors],
    the count query [GetSensorCount], the three write commands and the
    derived valve state, together with the parts of Go's [strconv] and
    [regexp] packages they call.

    Conventions.
    - A Go [string] is a sequence of bytes: Rocq's [string] (a list of
      8-bit [ascii]).
    - Go's [int], [int64] and [uint64] are [Z]; where the source can wrap,
      the wrap-around is written out ([wrap64], [toInt64]).
    - [float32] is IEEE 754 binary32, modelled by [spec_float] with
      precision 24 and maximal exponent 128, rounding to nearest even.
    - A Go [error] is [option string]: [None] is [nil].
    - A run-time panic (index out of range, [make] with a length out of
      range) is the outcome [Panicked]. *)

From Stdlib Require Import ZArith Lia Bool List Ascii String SpecFloat.
From Stdlib Require Import DecimalString DecimalZ DecimalPos DecimalFacts.
From stdpp Require Import base tactics option list.

Local Open Scope string_scope.
Local Open Scope Z_scope.

(** ** Machine integers *)

Definition maxUint64 : Z := 18446744073709551615.

(** [uint64] arithmetic wraps modulo 2^64. *)
Definition wrap64 (z : Z) : Z := z mod 18446744073709551616.

(** Conversion of a [uint64] bit pattern to [int64], and [int64] wrap. *)
Definition toInt64 (z : Z) : Z :=
  let w := wrap64 z in
  if w <? 9223372036854775808 then w else w - 18446744073709551616.

(** ** Package [strconv]: [ParseUint], [ParseInt], [Itoa] *)

Module strconv.

Inductive numError : Set := ErrSyntax | ErrRange | ErrBase | ErrBitSize.

Definition byteVal (c : ascii) : Z := Z.of_N (N_of_ascii c).

(** [lower(c)] of [strconv]: [c | ('x' - 'X')]. *)
Definition lower (c : Z) : Z := Z.lor c 32.

(** The value of one digit byte as [ParseUint] reads it: decimal digits,
    then letters of either case from 10 on; [None] is the [default] branch
    of the switch (a syntax error). *)
Definition digitVal (c : ascii) : option Z :=
  let b := byteVal c in
  if (48 <=? b) && (b <=? 57) then Some (b - 48)
  else if (97 <=? lower b) && (lower b <=? 122) then Some (lower b - 97 + 10)
  else None.

(** The digit loop of [ParseUint].  It leaves at the first offending byte:
    a byte that is no digit gives [ErrSyntax] with value 0, an overflow gives
    [ErrRange] with [maxVal], whatever follows in the string. *)
Fixpoint ParseUint_loop (base maxVal cutoff : Z) (s : string) (n : Z)
  : Z * option numError :=
  match s with
  | EmptyString => (n, None)
  | String c s' =>
      match digitVal c with
      | None => (0, Some ErrSyntax)
      | Some d =>
          if d >=? base then (0, Some ErrSyntax)
          else if n >=? cutoff then (maxVal, Some ErrRange)
          else
            let n' := wrap64 (n * base) in
            let n1 := wrap64 (n' + d) in
            if (n1 <? n') || (n1 >? maxVal) then (maxVal, Some ErrRange)
            else ParseUint_loop base maxVal cutoff s' n1
      end
  end.

(** [strconv.ParseUint(s, base, bitSize)] for an explicit base in 2..36.
    Base 0 (the prefix-driven form) is not used by this package and is
    reported like any other base outside 2..36. *)
Definition ParseUint (s : string) (base bitSize : Z) : Z * option numError :=
  match s with
  | EmptyString => (0, Some ErrSyntax)
  | _ =>
      if negb ((2 <=? base) && (base <=? 36)) then (0, Some ErrBase)
      else
        let bitSize := if bitSize =? 0 then 64 else bitSize in
        if (bitSize <? 0) || (bitSize >? 64) then (0, Some ErrBitSize)
        else
          let cutoff := maxUint64 / base + 1 in
          let maxVal := wrap64 (wrap64 (2 ^ bitSize) - 1) in
          ParseUint_loop base maxVal cutoff s 0
  end.

(** [strconv.ParseInt(s, base, bitSize)]: on a range error the returned
    value is the bound of the requested size, not 0. *)
Definition ParseInt (s : string) (base bitSize : Z) : Z * option numError :=
  match s with
  | EmptyString => (0, Some ErrSyntax)
  | String c r =>
      let neg := Ascii.eqb c "-"%char in
      let s1 := if Ascii.eqb c "+"%char || neg then r else s in
      let '(un, err) := ParseUint s1 base bitSize in
      match err with
      | Some ErrSyntax => (0, err)
      | Some ErrBase => (0, err)
      | Some ErrBitSize => (0, err)
      | _ =>
          let bitSize := if bitSize =? 0 then 64 else bitSize in
          let cutoff := wrap64 (2 ^ (bitSize - 1)) in
          if negb neg && (un >=? cutoff) then (toInt64 (cutoff - 1), Some ErrRange)
          else if neg && (un >? cutoff) then (toInt64 (- cutoff), Some ErrRange)
          else
            let n := toInt64 un in
            (if neg then toInt64 (- n) else n, None)
      end
  end.

(** [strconv.Itoa(i)], which is also how [fmt]'s [%v] prints an [int]:
    the decimal digits, most significant first, after a minus sign for a
    negative number. *)
Definition Itoa (i : Z) : string := NilZero.string_of_int (Z.to_int i).

End strconv.

(** ** [float32] *)

Definition float32 : Set := spec_float.

Module f32.
Definition prec : Z := 24.
Definition emax : Z := 128.

Definition zero : float32 := S754_zero false.
(** Conversion of an integer ([float32(intValue)], or an untyped integer
    constant used as a [float32]): the nearest binary32 value. *)
Definition of_int (z : Z) : float32 := binary_normalize prec emax z 0 false.
Definition mul (x y : float32) : float32 := SFmul prec emax x y.
Definition div (x y : float32) : float32 := SFdiv prec emax x y.
Definition ltb (x y : float32) : bool := SFltb x y.

(** The integer nearest to [m * 2^e], ties to the even one. *)
Definition roundHalfEven (m : positive) (e : Z) : Z :=
  if 0 <=? e then Z.pos m * 2 ^ e
  else
    let d := 2 ^ (- e) in
    let q := Z.pos m / d in
    let r := Z.pos m mod d in
    match 2 * r ?= d with
    | Lt => q
    | Gt => q + 1
    | Eq => if Z.even q then q else q + 1
    end.

(** [strconv.FormatFloat(float64(x), 'f', 0, 32)] for a [float32] [x]: the
    conversion to [float64] and back is exact, and format ['f'] with
    precision 0 prints the decimal expansion of [x] rounded to no fractional
    digit, to nearest with ties to even, after a minus sign when the sign
    bit is set (so also for a negative value that rounds to 0). *)
Definition FormatFloat_f_0 (x : float32) : string :=
  match x with
  | S754_nan => "NaN"
  | S754_infinity false => "+Inf"
  | S754_infinity true => "-Inf"
  | S754_zero s => (if s then "-" else "") ++ "0"
  | S754_finite s m e =>
      (if s then "-" else "") ++ strconv.Itoa (roundHalfEven m e)
  end.

(** [x] is a binary32 value within half a unit in the last place of the
    fraction [num / den] (with [den > 0]): what a correctly rounded division
    of [num] by [den] returns, and what the constant [num/den] of type
    [float32] denotes. *)
Definition isNearest (num den : Z) (x : float32) : Prop :=
  match x with
  | S754_zero _ => num = 0
  | S754_finite s m e =>
      bounded prec emax m e = true /\
      let sm := if s then Z.neg m else Z.pos m in
      if e <? 0 then 2 * Z.abs (sm * den - num * 2 ^ (- e)) <= den
      else 2 * Z.abs (sm * 2 ^ e * den - num) <= 2 ^ e * den
  | _ => False
  end.

(** [x] is the fraction [num / den] itself. *)
Definition isExactly (num den : Z) (x : float32) : Prop :=
  match x with
  | S754_zero _ => num = 0
  | S754_finite s m e =>
      bounded prec emax m e = true /\
      let sm := if s then Z.neg m else Z.pos m in
      if e <? 0 then sm * den = num * 2 ^ (- e)
      else sm * 2 ^ e * den = num
  | _ => False
  end.
End f32.

(** ** Package [regexp]: the one pattern of the program *)

Module regexp.

Definition isDigit (c : ascii) : bool :=
  let b := strconv.byteVal c in (48 <=? b) && (b <=? 57).

(** [.] without the [s] flag: anything but a line feed.  The engine reads
    UTF-8, a byte that is no valid encoding counts as one character, and no
    byte of a multi-byte character is a line feed: on bytes, [.+] is a
    non-empty string without the byte 10. *)
Definition isDot (c : ascii) : bool := negb (strconv.byteVal c =? 10).

Fixpoint all (p : ascii -> bool) (s : string) : bool :=
  match s with
  | EmptyString => true
  | String c s' => p c && all p s'
  end.

(** The longest prefix of [s] made of bytes satisfying [p], and the rest. *)
Fixpoint span (p : ascii -> bool) (s : string) : string * string :=
  match s with
  | EmptyString => (EmptyString, EmptyString)
  | String c s' =>
      if p c then let '(a, b) := span p s' in (String c a, b)
      else (EmptyString, s)
  end.

(** [regexp.MustCompile(`^G([0-9]+)\.(.+)$`).FindStringSubmatch(name)]:
    the whole match and the two groups, or the empty slice when [name]
    does not match.  After the [G] the first group is the whole run of
    digits (the byte after it has to be the dot), and the second group is
    all the rest up to the end of the text. *)
Definition sensorInfoParser_FindStringSubmatch (name : string) : list string :=
  match name with
  | String "G"%char r =>
      match span isDigit r with
      | (String d ds, String "."%char fld) =>
          match fld with
          | EmptyString => []
          | String _ _ => if all isDot fld then [name; String d ds; fld] else []
          end
      | _ => []
      end
  | _ => []
  end.

End regexp.

(** ** Outcomes of code that can panic *)

Inductive panic : Set :=
| IndexOutOfRange (index length : Z)
| MakeSliceLenOutOfRange.

Inductive outcome (A : Type) : Type :=
| Returned (a : A)
| Panicked (p : panic).
Arguments Returned {A} a.
Arguments Panicked {A} p.

#[global] Instance outcome_ret : MRet outcome := fun A a => Returned a.
#[global] Instance outcome_bind : MBind outcome := fun A B k o =>
  match o with
  | Returned a => k a
  | Panicked p => Panicked p
  end.

(** The largest allocation the run time accepts: [maxAlloc] of package
    [runtime], 2^48 bytes on 64-bit Linux. *)
Definition maxAlloc : Z := 281474976710656.

(** [make([]T, n)] ([runtime.makeslice]) for an element type of [size]
    bytes: a slice of [n] zero values.  It panics ("makeslice: len out of
    range") when [n] is negative and when [size * n] bytes overflow the
    address space or exceed [maxAlloc].  An allocation that the run time
    accepts is taken to succeed: running out of memory ends the process
    with a fatal error, which is no outcome of the package. *)
Definition make {A : Type} (size : Z) (zero : A) (n : Z) : outcome (list A) :=
  if (n <? 0) || (maxAlloc <? size * n) then Panicked MakeSliceLenOutOfRange
  else Returned (replicate (Z.to_nat n) zero).

(** [s[i]] as an address ([&s[i]], or the target of an assignment): the
    bounds check of the run time. *)
Definition checkIndex {A : Type} (s : list A) (i : Z) : outcome unit :=
  if (0 <=? i) && (i <? Z.of_nat (length s)) then Returned tt
  else Panicked (IndexOutOfRange i (Z.of_nat (length s))).

(** [s[i]] as a value. *)
Definition load {A : Type} (s : list A) (i : Z) : outcome A :=
  match (if 0 <=? i then s !! Z.to_nat i else None) with
  | Some a => Returned a
  | None => Panicked (IndexOutOfRange i (Z.of_nat (length s)))
  end.

(** [s[i].field = v], written as the update [f] of the element. *)
Definition store {A : Type} (s : list A) (i : Z) (f : A -> A) : outcome (list A) :=
  _ ← checkIndex s i;
  Returned (alter f (Z.to_nat i) s).

(** [for i := from; i < to; i++ { body }] over a state [S]; [n] is the number
    of rounds left. *)
Fixpoint forRange {S : Type} (n : nat) (i : Z) (body : Z -> S -> outcome S) (s : S)
  : outcome S :=
  match n with
  | O => Returned s
  | Datatypes.S n' => s' ← body i s; forRange n' (toInt64 (i + 1)) body s'
  end.

(** ** Package [roth] *)

Definition ProgramConstant : Z := 0.
Definition Program1 : Z := 1.
Definition Program2 : Z := 2.

Definition ModeDay : Z := 0.
Definition ModeNight : Z := 1.
Definition ModeHoliday : Z := 2.

Record Sensor : Set := mkSensor {
  Id : Z;
  Name : string;
  RoomTemperature : float32;
  TargetTemperature : float32;
  Program : Z;
  Mode : Z
}.

(** The zero value of [Sensor], which [make] fills the slice with. *)
Definition zeroSensor : Sensor := mkSensor 0 "" f32.zero f32.zero 0 0.

(** The size of a [Sensor] in bytes, with 64-bit [int]: an [int], a string
    header of two words, two [float32] and two [int]. *)
Definition sizeof_Sensor : Z := 48.

Definition ValveOpen : string := "open".
Definition ValveClosed : string := "closed".

Definition GetValveState (s : Sensor) : string :=
  if f32.ltb (RoomTemperature s) (TargetTemperature s) then ValveOpen
  else ValveClosed.

Definition GetValveValue (s : Sensor) : Z :=
  if f32.ltb (RoomTemperature s) (TargetTemperature s) then 1 else 0.

(** [readRequestItem] has the one field [Name]: a request is the list of
    its item names.  [responseItem] has [Name] and [Value]; its projections
    are [itemName] and [itemValue] here, [Name] being taken by [Sensor]. *)
Definition readRequest : Set := list string.

(** The size of a [readRequestItem] in bytes: one string header. *)
Definition sizeof_readRequestItem : Z := 16.

Record responseItem : Set := mkItem { itemName : string; itemValue : string }.

Definition response : Set := list responseItem.

Definition error : Set := option string.

(** What [http.Post] followed by [ioutil.ReadAll] can come to. *)
Inductive postResult : Set :=
| PostFailed
| ReadFailed
| Body (body : string).

(** Assignments to the fields of one [Sensor]. *)
Definition setId (v : Z) (s : Sensor) : Sensor :=
  mkSensor v (Name s) (RoomTemperature s) (TargetTemperature s) (Program s) (Mode s).
Definition setName (v : string) (s : Sensor) : Sensor :=
  mkSensor (Id s) v (RoomTemperature s) (TargetTemperature s) (Program s) (Mode s).
Definition setRoomTemperature (v : float32) (s : Sensor) : Sensor :=
  mkSensor (Id s) (Name s) v (TargetTemperature s) (Program s) (Mode s).
Definition setTargetTemperature (v : float32) (s : Sensor) : Sensor :=
  mkSensor (Id s) (Name s) (RoomTemperature s) v (Program s) (Mode s).
Definition setProgram (v : Z) (s : Sensor) : Sensor :=
  mkSensor (Id s) (Name s) (RoomTemperature s) (TargetTemperature s) v (Mode s).
Definition setMode (v : Z) (s : Sensor) : Sensor :=
  mkSensor (Id s) (Name s) (RoomTemperature s) (TargetTemperature s) (Program s) v.

(** The five names asked for sensor [i], as [fmt.Sprintf("G%v.<field>", i)]
    prints them. *)
Definition requestName (i : Z) (field : string) : string :=
  "G" ++ strconv.Itoa i ++ "." ++ field.

(** The body of the first loop of [GetSensors]: five indexed assignments. *)
Definition GetSensors_fill (i : Z) (items : list string) : outcome (list string) :=
  items ← store items (toInt64 (toInt64 (i * 5) + 0)) (fun _ => requestName i "RaumTemp");
  items ← store items (toInt64 (toInt64 (i * 5) + 1)) (fun _ => requestName i "SollTemp");
  items ← store items (toInt64 (toInt64 (i * 5) + 2)) (fun _ => requestName i "name");
  items ← store items (toInt64 (toInt64 (i * 5) + 3)) (fun _ => requestName i "WeekProg");
  store items (toInt64 (toInt64 (i * 5) + 4)) (fun _ => requestName i "OPmode").

(** The request of [GetSensors]: [make] and the first loop. *)
Definition GetSensors_request (sensorCount : Z) : outcome readRequest :=
  items ← make sizeof_readRequestItem "" (toInt64 (sensorCount * 5));
  forRange (Z.to_nat sensorCount) 0 GetSensors_fill items.

(** The body of the second loop of [GetSensors], for one response item.
    The diagnostics it prints with [fmt.Printf] are left out: they change
    neither the slice nor the control flow. *)
Definition GetSensors_item (sensors : list Sensor) (item : responseItem)
  : outcome (list Sensor) :=
  match regexp.sensorInfoParser_FindStringSubmatch (itemName item) with
  | [] => Returned sensors
  | sensorInfo =>
      index ← load sensorInfo 1;
      (* the error of this parse is printed and not acted upon *)
      let '(sensorIndex, _) := strconv.ParseInt index 10 8 in
      _ ← checkIndex sensors sensorIndex;
      let '(intValue, err) := strconv.ParseInt (itemValue item) 10 16 in
      let floatValue :=
        match err with
        | None => f32.div (f32.of_int intValue) (f32.of_int 100)
        | Some _ => f32.zero
        end in
      valueName ← load sensorInfo 2;
      sensors ← store sensors sensorIndex (setId sensorIndex);
      if String.eqb valueName "RaumTemp" then
        store sensors sensorIndex (setRoomTemperature floatValue)
      else if String.eqb valueName "SollTemp" then
        store sensors sensorIndex (setTargetTemperature floatValue)
      else if String.eqb valueName "name" then
        store sensors sensorIndex (setName (itemValue item))
      else if String.eqb valueName "WeekProg" then
        store sensors sensorIndex (setProgram intValue)
      else if String.eqb valueName "OPmode" then
        store sensors sensorIndex (setMode intValue)
      else Returned sensors
  end.

(** The second loop of [GetSensors] over the items of the response. *)
Fixpoint GetSensors_decode (sensors : list Sensor) (items : response)
  : outcome (list Sensor) :=
  match items with
  | [] => Returned sensors
  | item :: rest =>
      sensors ← GetSensors_item sensors item;
      GetSensors_decode sensors rest
  end.

(** The address [writeValue] asks for. *)
Definition writeValue_url (managementURL : string) (sensorID : Z)
    (valueName value : string) : string :=
  managementURL ++ "/cgi-bin/writeVal.cgi?G" ++ strconv.Itoa sensorID
    ++ "." ++ valueName ++ "=" ++ value.

(** The local [value] of [SetTargetTemperature]: the product with 100 is a
    [float32] product, and it is printed with no fractional digit. *)
Definition SetTargetTemperature_value (targetTemperature : float32) : string :=
  f32.FormatFloat_f_0 (f32.mul targetTemperature (f32.of_int 100)).

Section Transport.

(** The collaborators outside the package: [encoding/xml] and [net/http]. *)
Variable xml_MarshalIndent : readRequest -> string * error.
Variable http_Post : string -> string -> string -> postResult.
Variable xml_Unmarshal : string -> option response.
Variable http_Get : string -> error.

Definition marshalRequest (req : readRequest) : string * error :=
  xml_MarshalIndent req.

Definition readValues (managementURL : string) (req : readRequest)
  : response * error :=
  match marshalRequest req with
  | (_, Some err) => ([], Some err)
  | (requstData, None) =>
      let url := managementURL ++ "/cgi-bin/ILRReadValues.cgi" in
      match http_Post url "text/xml" requstData with
      | PostFailed => ([], Some "error requesting data from server")
      | ReadFailed => ([], Some "error reading response")
      | Body body =>
          match xml_Unmarshal body with
          | None => ([], Some "error parsing xml")
          | Some resp => (resp, None)
          end
      end
  end.

Definition writeValue (managementURL : string) (sensorID : Z)
    (valueName value : string) : error :=
  match http_Get (writeValue_url managementURL sensorID valueName value) with
  | Some _ => Some "error sending data to server"
  | None => None
  end.

Definition GetSensorCount (managementURL : string) : Z * error :=
  let req := ["totalNumberOfDevices"] in
  match readValues managementURL req with
  | (_, Some err) => (0, Some err)
  | (resp, None) =>
      match resp with
      | [] => (0, Some "no values returned")
      | item0 :: _ =>
          match strconv.ParseInt (itemValue item0) 10 8 with
          | (_, Some _) => (0, Some ("Unexpected value " ++ itemValue item0))
          | (intValue, None) => (intValue, None)
          end
      end
  end.

Definition SetTargetTemperature (managementURL : string) (sensorID : Z)
    (targetTemperature : float32) : error :=
  let value := SetTargetTemperature_value targetTemperature in
  writeValue managementURL sensorID "SollTemp" value.

Definition SetProgram (managementURL : string) (sensorID program : Z) : error :=
  let value := strconv.Itoa program in
  writeValue managementURL sensorID "WeekProg" value.

Definition SetMode (managementURL : string) (sensorID mode : Z) : error :=
  let value := strconv.Itoa mode in
  writeValue managementURL sensorID "OPMode" value.

Definition GetSensors (managementURL : string) (sensorCount : Z)
  : outcome (list Sensor * error) :=
  req ← GetSensors_request sensorCount;
  match readValues managementURL req with
  | (_, Some err) => Returned ([], Some err)
  | (resp, None) =>
      sensors ← make sizeof_Sensor zeroSensor sensorCount;
      sensors ← GetSensors_decode sensors resp;
      Returned (sensors, None)
  end.

End Transport.

(** ** Decimal notation, for stating what the parsers accept

    These definitions follow the usual reading of a decimal numeral, not
    the code of [strconv]: an optional sign, then one or more digits. *)

Module decimal.

(** The number written by the digits of [s], after the digits already
    read as [acc]. *)
Fixpoint digitsValue (s : string) (acc : Z) : Z :=
  match s with
  | EmptyString => acc
  | String c r => digitsValue r (acc * 10 + (strconv.byteVal c - 48))
  end.

Definition isDigits (s : string) : bool :=
  negb (String.eqb s "") && regexp.all regexp.isDigit s.

Definition isDecimal (s : string) : bool :=
  match s with
  | String c r =>
      if Ascii.eqb c "+"%char || Ascii.eqb c "-"%char then isDigits r
      else isDigits s
  | EmptyString => false
  end.

Definition decimalValue (s : string) : Z :=
  match s with
  | String c r =>
      if Ascii.eqb c "-"%char then - digitsValue r 0
      else if Ascii.eqb c "+"%char then digitsValue r 0
      else digitsValue s 0
  | EmptyString => 0
  end.

(** A numeral that a signed integer of [bitSize] bits can hold. *)
Definition fits (bitSize : Z) (s : string) : bool :=
  isDecimal s
  && (- 2 ^ (bitSize - 1) <=? decimalValue s)
  && (decimalValue s <? 2 ^ (bitSize - 1)).

End decimal.

(** ** The effect of one item, for stating what the decoder does *)

(** The locals [intValue] and [floatValue] of the loop body, as functions
    of the item's value. *)
Definition intValueOf (value : string) : Z :=
  fst (strconv.ParseInt value 10 16).

Definition floatValueOf (value : string) : float32 :=
  match strconv.ParseInt value 10 16 with
  | (intValue, None) => f32.div (f32.of_int intValue) (f32.of_int 100)
  | (_, Some _) => f32.zero
  end.

(** The [switch] of the loop body as an update of the addressed record. *)
Definition fieldAssign (valueName value : string) (s : Sensor) : Sensor :=
  if String.eqb valueName "RaumTemp" then setRoomTemperature (floatValueOf value) s
  else if String.eqb valueName "SollTemp" then setTargetTemperature (floatValueOf value) s
  else if String.eqb valueName "name" then setName value s
  else if String.eqb valueName "WeekProg" then setProgram (intValueOf value) s
  else if String.eqb valueName "OPmode" then setMode (intValueOf value) s
  else s.

(** The five field identifiers the [switch] knows. *)
Definition knownFields : list string :=
  ["RaumTemp"; "SollTemp"; "name"; "WeekProg"; "OPmode"].

(** The position an item writes to: the parsed index group of a matching
    name, with whatever value the parse left there. *)
Definition addressedIndex (item : responseItem) : option Z :=
  match regexp.sensorInfoParser_FindStringSubmatch (itemName item) with
  | [_; index; _] => Some (fst (strconv.ParseInt index 10 8))
  | _ => None
  end.

Definition panics {A : Type} (o : outcome A) : Prop :=
  exists p, o = Panicked p.

(** The names of one round of the request loop, in the order of the source. *)
Definition requestNames (i : Z) : list string :=
  map (requestName i) knownFields.

(** ** Which item writes which field, for stating what a response leaves *)

(** The field group of a matching name. *)
Definition addressedField (item : responseItem) : option string :=
  match regexp.sensorInfoParser_FindStringSubmatch (itemName item) with
  | [_; _; field] => Some field
  | _ => None
  end.

(** [item] is addressed to position [j] with the field [field]. *)
Definition writesTo (j : Z) (field : string) (item : responseItem) : bool :=
  match addressedIndex item, addressedField item with
  | Some i, Some f => (i =? j) && String.eqb f field
  | _, _ => false
  end.

(** The value of the last item of the response addressed to position [j]
    with the field [field], if there is one. *)
Fixpoint lastValue (j : Z) (field : string) (items : response) : option string :=
  match items with
  | [] => None
  | item :: rest =>
      match lastValue j field rest with
      | Some v => Some v
      | None => if writesTo j field item then Some (itemValue item) else None
      end
  end.

(** Some item of the response is addressed to position [j]. *)
Definition addresses (j : Z) (items : response) : bool :=
  existsb (fun item => match addressedIndex item with
                       | Some i => i =? j
                       | None => false
                       end) items.

(** What a response leaves in the record at position [j] that held [x]:
    the [Id] is [j] once an item was addressed there, and each other field
    holds the value of the last item that wrote it. *)
Definition leftInRecord (j : Z) (items : response) (x : Sensor) : Sensor :=
  mkSensor
    (if addresses j items then j else Id x)
    (default (Name x) (lastValue j "name" items))
    (default (RoomTemperature x) (floatValueOf <$> lastValue j "RaumTemp" items))
    (default (TargetTemperature x) (floatValueOf <$> lastValue j "SollTemp" items))
    (default (Program x) (intValueOf <$> lastValue j "WeekProg" items))
    (default (Mode x) (intValueOf <$> lastValue j "OPmode" items)).

(** ** Wire temperatures, for checking every one of them *)

(** The temperature that the decoder makes of the wire integer [w], with
    [c] for the constant 100 as a [float32]. *)
Definition decodeTemperature (c : float32) (w : Z) : float32 :=
  f32.div (f32.of_int w) c.

(** An integer that orders the binary32 numbers as their comparison does:
    the exponent first, the mantissa second, the sign over both. *)
Definition rank32 (x : float32) : Z :=
  match x with
  | S754_finite s m e =>
      let r := (e + 150) * 16777216 + Z.pos m in if s then - r else r
  | _ => 0
  end.

(** [f32.isNearest] as a test. *)
Definition isNearestb (num den : Z) (x : float32) : bool :=
  match x with
  | S754_zero _ => num =? 0
  | S754_finite s m e =>
      bounded f32.prec f32.emax m e &&
      let sm := if s then Z.neg m else Z.pos m in
      if e <? 0 then 2 * Z.abs (sm * den - num * 2 ^ (- e)) <=? den
      else 2 * Z.abs (sm * 2 ^ e * den - num) <=? 2 ^ e * den
  | _ => false
  end.

(** One pass over the [n] wire integers from [w] on.  For each of them the
    decoded temperature has to be a positive number nearest to the
    hundredth of the integer, greater than the one before (whose rank is
    [prev]), and its product with 100 has to round back to the integer. *)
Fixpoint wireCheck (c : float32) (n : nat) (w prev : Z) : bool :=
  match n with
  | O => true
  | S n' =>
      match decodeTemperature c w with
      | S754_finite false m e =>
          isNearestb w 100 (S754_finite false m e)
          && (prev <? rank32 (S754_finite false m e))
          && match f32.mul (S754_finite false m e) c with
             | S754_finite false m' e' => f32.roundHalfEven m' e' =? w
             | _ => false
             end
          && wireCheck c n' (w + 1) (rank32 (S754_finite false m e))
      | _ => false
      end
  end.

(** * Properties *)

(** Case analysis on the first comparison of two integers in the goal. *)
Ltac case_cmp :=
  match goal with
  | |- context [Z.geb ?a ?b] => destruct (Z.geb_spec a b)
  | |- context [Z.gtb ?a ?b] => destruct (Z.gtb_spec a b)
  | |- context [Z.ltb ?a ?b] => destruct (Z.ltb_spec a b)
  | |- context [Z.leb ?a ?b] => destruct (Z.leb_spec a b)
  end.

(** ** [strconv] *)

Section ParseUint.

Import strconv decimal regexp.

Lemma byteVal_range c : 0 <= byteVal c < 256.
Proof.
  unfold byteVal. pose proof (N_ascii_bounded c) as H.
  split; [apply N2Z.is_nonneg|]. change 256 with (Z.of_N 256). lia.
Qed.

Lemma digitVal_isDigit c :
  isDigit c = true ->
  digitVal c = Some (byteVal c - 48) /\ 0 <= byteVal c - 48 <= 9.
Proof.
  unfold isDigit, digitVal. cbv zeta. intros H. rewrite H.
  apply andb_true_iff in H as [H1 H2]. split; [reflexivity | lia].
Qed.

Lemma digitVal_not_isDigit c d :
  isDigit c = false -> digitVal c = Some d -> 10 <= d.
Proof.
  unfold isDigit, digitVal. cbv zeta. intros H. rewrite H. cbv iota.
  destruct ((97 <=? _) && _) eqn:E; [|intros [=]].
  intros [= <-]. apply andb_true_iff in E as [E1 E2]. lia.
Qed.

Lemma digitsValue_ge s : forall acc,
  all isDigit s = true -> 0 <= acc -> acc <= digitsValue s acc.
Proof.
  induction s as [|c r IH]; intros acc Hd Hacc; simpl in *; [lia|].
  apply andb_true_iff in Hd as [Hc Hr].
  apply digitVal_isDigit in Hc as [_ Hc].
  specialize (IH (acc * 10 + (byteVal c - 48)) Hr). lia.
Qed.

Variable maxVal : Z.
Hypothesis maxVal_range : 0 <= maxVal <= maxUint64.

(** On a string of digits the loop computes the number they write, or
    stops with [maxVal] and a range error as soon as it exceeds [maxVal]. *)
Lemma ParseUint_loop_digits s : forall n,
  all isDigit s = true -> 0 <= n <= maxVal ->
  ParseUint_loop 10 maxVal (maxUint64 / 10 + 1) s n =
    if digitsValue s n <=? maxVal then (digitsValue s n, None)
    else (maxVal, Some ErrRange).
Proof.
  unfold maxUint64 in *.
  change (18446744073709551615 / 10 + 1) with 1844674407370955162.
  induction s as [|c r IH]; intros n Hd Hn; simpl.
  - destruct (Z.leb_spec n maxVal); [reflexivity | lia].
  - apply andb_true_iff in Hd as [Hc Hr].
    pose proof (digitsValue_ge r (n * 10 + (byteVal c - 48)) Hr) as Hge.
    apply digitVal_isDigit in Hc as [-> Hc].
    destruct (Z.geb_spec (byteVal c - 48) 10); [lia|].
    destruct (Z.geb_spec n 1844674407370955162).
    { destruct (Z.leb_spec (digitsValue r (n * 10 + (byteVal c - 48))) maxVal);
        [lia | reflexivity]. }
    unfold wrap64.
    rewrite (Z.mod_small (n * 10)) by lia.
    destruct (Z_lt_le_dec (n * 10 + (byteVal c - 48)) 18446744073709551616) as [Hs|Hs].
    + rewrite (Z.mod_small (n * 10 + _)) by lia.
      destruct (Z.ltb_spec (n * 10 + (byteVal c - 48)) (n * 10)); [lia|].
      destruct (Z.gtb_spec (n * 10 + (byteVal c - 48)) maxVal); simpl.
      * destruct (Z.leb_spec (digitsValue r (n * 10 + (byteVal c - 48))) maxVal);
          [lia | reflexivity].
      * apply IH; [assumption | lia].
    + assert (Hm : (n * 10 + (byteVal c - 48)) mod 18446744073709551616
                   = n * 10 + (byteVal c - 48) - 18446744073709551616).
      { symmetry. apply Z.mod_unique with 1; lia. }
      rewrite Hm.
      destruct (Z.ltb_spec (n * 10 + (byteVal c - 48) - 18446744073709551616) (n * 10));
        [simpl | lia].
      destruct (Z.leb_spec (digitsValue r (n * 10 + (byteVal c - 48))) maxVal);
        [lia | reflexivity].
Qed.

(** Whatever the string, an error comes with value 0 (syntax) or [maxVal]
    (range). *)
Lemma ParseUint_loop_error s : forall n v e,
  ParseUint_loop 10 maxVal (maxUint64 / 10 + 1) s n = (v, Some e) ->
  (e = ErrSyntax /\ v = 0) \/ (e = ErrRange /\ v = maxVal).
Proof.
  induction s as [|c r IH]; intros n v e; simpl; [intros [=]|].
  destruct (digitVal c) as [d|]; [|intros [= <- <-]; auto].
  destruct (d >=? 10); [intros [= <- <-]; auto|].
  destruct (n >=? _); [intros [= <- <-]; auto|].
  destruct (_ || _); [intros [= <- <-]; auto|].
  apply IH.
Qed.

(** A byte that is no digit makes the loop fail. *)
Lemma ParseUint_loop_not_digits s : forall n,
  all isDigit s = false ->
  snd (ParseUint_loop 10 maxVal (maxUint64 / 10 + 1) s n) <> None.
Proof.
  induction s as [|c r IH]; intros n Hd; simpl in *; [discriminate|].
  destruct (isDigit c) eqn:Hc; simpl in Hd.
  - destruct (digitVal c) as [d|]; [|simpl; discriminate].
    destruct (d >=? 10); [simpl; discriminate|].
    destruct (n >=? _); [simpl; discriminate|].
    destruct (_ || _); [simpl; discriminate|].
    apply IH, Hd.
  - destruct (digitVal c) as [d|] eqn:Hdv; [|simpl; discriminate].
    apply (digitVal_not_isDigit _ _ Hc) in Hdv.
    destruct (Z.geb_spec d 10); [simpl; discriminate | lia].
Qed.

End ParseUint.

Lemma toInt64_small z :
  -9223372036854775808 <= z < 9223372036854775808 -> toInt64 z = z.
Proof.
  intros Hz. unfold toInt64, wrap64.
  destruct (Z_lt_le_dec z 0) as [Hneg|Hpos].
  - assert (Hm : z mod 18446744073709551616 = z + 18446744073709551616).
    { symmetry. apply Z.mod_unique with (-1); lia. }
    rewrite Hm.
    destruct (Z.ltb_spec (z + 18446744073709551616) 9223372036854775808); lia.
  - rewrite Z.mod_small by lia.
    destruct (Z.ltb_spec z 9223372036854775808); lia.
Qed.

Section ParseInt.

Import strconv decimal regexp.

(** The two sizes the program asks for. *)
Variable bitSize : Z.
Hypothesis bitSize_8_or_16 : bitSize = 8 \/ bitSize = 16.

Lemma ParseUint_10 s :
  s <> "" ->
  ParseUint s 10 bitSize =
    ParseUint_loop 10 (2 ^ bitSize - 1) (maxUint64 / 10 + 1) s 0.
Proof.
  intros Hs. destruct s as [|c r]; [congruence|].
  destruct bitSize_8_or_16 as [-> | ->]; reflexivity.
Qed.

Lemma isDigits_inv s :
  isDigits s = true -> s <> "" /\ all isDigit s = true.
Proof.
  unfold isDigits. intros [H1 H2]%andb_true_iff. split; [|assumption].
  intros ->. discriminate.
Qed.

Lemma ParseUint_digits s :
  isDigits s = true ->
  ParseUint s 10 bitSize =
    if digitsValue s 0 <=? 2 ^ bitSize - 1 then (digitsValue s 0, None)
    else (2 ^ bitSize - 1, Some ErrRange).
Proof.
  intros [Hne Hd]%isDigits_inv. rewrite ParseUint_10 by assumption.
  apply ParseUint_loop_digits; [|assumption|].
  - destruct bitSize_8_or_16 as [-> | ->]; unfold maxUint64; simpl; lia.
  - destruct bitSize_8_or_16 as [-> | ->]; simpl; lia.
Qed.

Lemma ParseUint_error s v e :
  ParseUint s 10 bitSize = (v, Some e) ->
  (e = ErrSyntax /\ v = 0) \/ (e = ErrRange /\ v = 2 ^ bitSize - 1).
Proof.
  destruct s as [|c r]; [intros [= <- <-]; auto|].
  rewrite ParseUint_10 by discriminate.
  apply ParseUint_loop_error.
Qed.

Lemma ParseUint_not_digits s :
  isDigits s = false -> snd (ParseUint s 10 bitSize) <> None.
Proof.
  intros H. destruct s as [|c r]; [simpl; discriminate|].
  rewrite ParseUint_10 by discriminate.
  apply ParseUint_loop_not_digits. exact H.
Qed.

(** The second half of [ParseInt], after the sign is taken off and
    [ParseUint] has returned [un] without a syntax error. *)
Lemma ParseInt_finish c r un err :
  let neg := Ascii.eqb c "-"%char in
  ParseUint (if Ascii.eqb c "+"%char || neg then r else String c r) 10 bitSize
    = (un, err) ->
  err = None \/ err = Some ErrRange ->
  0 <= un <= 2 ^ bitSize - 1 ->
  ParseInt (String c r) 10 bitSize =
    let cutoff := 2 ^ (bitSize - 1) in
    if negb neg && (un >=? cutoff) then (cutoff - 1, Some ErrRange)
    else if neg && (un >? cutoff) then (- cutoff, Some ErrRange)
    else (if neg then - un else un, None).
Proof.
  cbv zeta. intros E Herr Hun. unfold ParseInt. rewrite E.
  assert (Hsmall : -9223372036854775808 <= un < 9223372036854775808 /\
                   -9223372036854775808 <= - un < 9223372036854775808).
  { destruct bitSize_8_or_16 as [-> | ->]; simpl in Hun; lia. }
  destruct Hsmall as [Hs1 Hs2].
  rewrite (toInt64_small un) by exact Hs1.
  rewrite (toInt64_small (- un)) by exact Hs2.
  destruct Herr as [-> | ->];
    destruct bitSize_8_or_16 as [-> | ->]; reflexivity.
Qed.

(** What [ParseInt] returns on a decimal numeral: its value when it fits
    the size, else the nearest bound of the size with a range error. *)
Lemma ParseInt_decimal s :
  isDecimal s = true ->
  ParseInt s 10 bitSize =
    let v := decimalValue s in
    if v <? - 2 ^ (bitSize - 1) then (- 2 ^ (bitSize - 1), Some ErrRange)
    else if 2 ^ (bitSize - 1) <=? v then (2 ^ (bitSize - 1) - 1, Some ErrRange)
    else (v, None).
Proof.
  destruct s as [|c r]; [discriminate|].
  unfold isDecimal, decimalValue. intros Hdec.
  set (s1 := if Ascii.eqb c "+"%char || Ascii.eqb c "-"%char then r else String c r).
  assert (Hs1 : isDigits s1 = true).
  { subst s1. destruct (_ || _); assumption. }
  pose proof (ParseUint_digits s1 Hs1) as HU.
  assert (Hv : decimalValue (String c r) =
               if Ascii.eqb c "-"%char then - digitsValue s1 0 else digitsValue s1 0).
  { subst s1. unfold decimalValue.
    destruct (Ascii.eqb c "-"%char); [rewrite orb_true_r; reflexivity|].
    rewrite orb_false_r. destruct (Ascii.eqb c "+"%char); reflexivity. }
  change (if Ascii.eqb c "-"%char then - digitsValue r 0 else _)
    with (decimalValue (String c r)).
  rewrite Hv. clear Hv.
  apply isDigits_inv in Hs1 as [_ Hd].
  pose proof (digitsValue_ge s1 0 Hd ltac:(lia)) as Hge.
  assert (Hpow : 2 ^ bitSize - 1 = 2 * 2 ^ (bitSize - 1) - 1 /\ 2 <= 2 ^ (bitSize - 1)).
  { destruct bitSize_8_or_16 as [-> | ->]; simpl; lia. }
  destruct Hpow as [Hp1 Hp2].
  destruct (Z.leb_spec (digitsValue s1 0) (2 ^ bitSize - 1)) as [Hle|Hgt].
  - rewrite (ParseInt_finish c r _ _ HU) by (auto; lia). cbv zeta.
    destruct (Ascii.eqb c "-"%char); simpl negb; simpl andb;
      repeat case_cmp; try reflexivity; lia.
  - rewrite (ParseInt_finish c r _ _ HU) by (auto; lia). cbv zeta.
    destruct (Ascii.eqb c "-"%char); simpl negb; simpl andb;
      repeat case_cmp; try reflexivity; lia.
Qed.

(** A string that is no decimal numeral is refused. *)
Lemma ParseInt_not_decimal s :
  isDecimal s = false -> snd (ParseInt s 10 bitSize) <> None.
Proof.
  destruct s as [|c r]; [simpl; discriminate|].
  unfold isDecimal. intros Hdec.
  set (s1 := if Ascii.eqb c "+"%char || Ascii.eqb c "-"%char then r else String c r).
  assert (Hs1 : isDigits s1 = false).
  { subst s1. destruct (_ || _); assumption. }
  pose proof (ParseUint_not_digits s1 Hs1) as HU.
  destruct (ParseUint s1 10 bitSize) as [un err] eqn:E. simpl in HU.
  destruct err as [e|]; [|congruence].
  destruct (ParseUint_error _ _ _ E) as [[-> ->] | [-> ->]].
  - unfold ParseInt. fold s1. rewrite E. simpl. discriminate.
  - rewrite (ParseInt_finish c r _ _ E); auto.
    + cbv zeta. destruct (Ascii.eqb c "-"%char); simpl negb; simpl andb.
      * destruct (Z.gtb_spec (2 ^ bitSize - 1) (2 ^ (bitSize - 1))); [simpl; discriminate|].
        destruct bitSize_8_or_16 as [-> | ->]; simpl in *; lia.
      * destruct (Z.geb_spec (2 ^ bitSize - 1) (2 ^ (bitSize - 1))); [simpl; discriminate|].
        destruct bitSize_8_or_16 as [-> | ->]; simpl in *; lia.
    + destruct bitSize_8_or_16 as [-> | ->]; simpl; lia.
Qed.

(** The value that comes with an error: 0 with a syntax error, a bound of
    the size with a range error. *)
Lemma ParseInt_error s v e :
  ParseInt s 10 bitSize = (v, Some e) ->
  (e = ErrSyntax /\ v = 0) \/
  (e = ErrRange /\ (v = 2 ^ (bitSize - 1) - 1 \/ v = - 2 ^ (bitSize - 1))).
Proof.
  destruct s as [|c r]; [intros [= <- <-]; auto|].
  set (s1 := if Ascii.eqb c "+"%char || Ascii.eqb c "-"%char then r else String c r).
  destruct (ParseUint s1 10 bitSize) as [un err] eqn:E.
  destruct err as [e'|].
  - destruct (ParseUint_error _ _ _ E) as [[-> ->] | [-> ->]].
    + unfold ParseInt. fold s1. rewrite E. intros [= <- <-]. auto.
    + rewrite (ParseInt_finish c r _ _ E); auto.
      * cbv zeta. repeat destruct (_ && _); intros [= <- <-]; auto.
      * destruct bitSize_8_or_16 as [-> | ->]; simpl; lia.
  - assert (Hun : 0 <= un <= 2 ^ bitSize - 1).
    { destruct (isDigits s1) eqn:Hd.
      - rewrite (ParseUint_digits s1 Hd) in E.
        apply isDigits_inv in Hd as [_ Hd].
        pose proof (digitsValue_ge s1 0 Hd ltac:(lia)).
        destruct (Z.leb_spec (digitsValue s1 0) (2 ^ bitSize - 1));
          [|discriminate]. injection E as <-. lia.
      - pose proof (ParseUint_not_digits s1 Hd) as HU. rewrite E in HU.
        simpl in HU. congruence. }
    rewrite (ParseInt_finish c r _ _ E); auto.
    cbv zeta. repeat destruct (_ && _); intros [= <- <-]; auto.
Qed.

(** Success is exactly: a decimal numeral whose value fits the size. *)
Lemma ParseInt_ok_iff s v :
  ParseInt s 10 bitSize = (v, None) <->
  isDecimal s = true /\ v = decimalValue s /\
  - 2 ^ (bitSize - 1) <= v < 2 ^ (bitSize - 1).
Proof.
  split.
  - intros H. destruct (isDecimal s) eqn:Hd.
    + rewrite (ParseInt_decimal s Hd) in H. cbv zeta in H.
      destruct (Z.ltb_spec (decimalValue s) (- 2 ^ (bitSize - 1))); [discriminate|].
      destruct (Z.leb_spec (2 ^ (bitSize - 1)) (decimalValue s)); [discriminate|].
      injection H as <-. auto with zarith.
    + pose proof (ParseInt_not_decimal s Hd) as Hn. rewrite H in Hn.
      simpl in Hn. congruence.
  - intros (Hd & -> & Hr). rewrite (ParseInt_decimal s Hd). cbv zeta.
    destruct (Z.ltb_spec (decimalValue s) (- 2 ^ (bitSize - 1))); [lia|].
    destruct (Z.leb_spec (2 ^ (bitSize - 1)) (decimalValue s)); [lia|].
    reflexivity.
Qed.

End ParseInt.

(** ** [regexp] *)

Section Regexp.

Import regexp decimal.

Lemma span_app p a c r :
  all p a = true -> p c = false ->
  span p (a ++ String c r) = (a, String c r).
Proof.
  intros Ha Hc. induction a as [|x a IH]; simpl in *.
  - rewrite Hc. reflexivity.
  - apply andb_true_iff in Ha as [Hx Ha]. rewrite Hx, (IH Ha). reflexivity.
Qed.

Lemma span_inv p s : forall a b,
  span p s = (a, b) -> s = a ++ b /\ all p a = true.
Proof.
  induction s as [|x s IH]; intros a b; simpl.
  - intros [= <- <-]. auto.
  - destruct (p x) eqn:Hx.
    + destruct (span p s) as [a' b'] eqn:E. intros [= <- <-].
      destruct (IH _ _ eq_refl) as [-> Ha]. simpl. rewrite Hx. auto.
    + intros [= <- <-]. auto.
Qed.

(** A name of the form [G<digits>.<field>] matches, with these groups. *)
Lemma FindStringSubmatch_match index field :
  isDigits index = true -> field <> "" -> all isDot field = true ->
  sensorInfoParser_FindStringSubmatch ("G" ++ index ++ "." ++ field)
    = ["G" ++ index ++ "." ++ field; index; field].
Proof.
  unfold isDigits. intros [Hne Hd]%andb_true_iff Hf Hdot.
  unfold sensorInfoParser_FindStringSubmatch. simpl.
  rewrite (span_app isDigit index "."%char field Hd eq_refl).
  destruct index as [|d ds]; [discriminate|].
  destruct field as [|f fs]; [congruence|].
  rewrite Hdot. reflexivity.
Qed.

(** A match always has that form: the name decomposes in one way only. *)
Lemma FindStringSubmatch_inv name :
  sensorInfoParser_FindStringSubmatch name = [] \/
  exists index field,
    sensorInfoParser_FindStringSubmatch name = [name; index; field] /\
    name = "G" ++ index ++ "." ++ field /\
    isDigits index = true /\ field <> "" /\ all isDot field = true.
Proof.
  unfold sensorInfoParser_FindStringSubmatch.
  destruct name as [|c r]; [auto|].
  destruct (Ascii.ascii_dec c "G"%char) as [->|Hc].
  2:{ left. destruct c as [[] [] [] [] [] [] [] []]; try reflexivity.
      congruence. }
  destruct (span isDigit r) as [a b] eqn:E.
  apply span_inv in E as [-> Ha].
  destruct a as [|d ds]; [auto|].
  destruct b as [|c' fld]; [auto|].
  destruct (Ascii.ascii_dec c' "."%char) as [->|Hc'].
  2:{ left. destruct c' as [[] [] [] [] [] [] [] []]; try reflexivity.
      congruence. }
  destruct fld as [|f fs]; [auto|].
  destruct (all isDot (String f fs)) eqn:Hdot; [|auto].
  right. exists (String d ds), (String f fs).
  repeat split; try reflexivity; try assumption; try discriminate.
Qed.

Lemma FindStringSubmatch_nil_iff name :
  sensorInfoParser_FindStringSubmatch name = [] <->
  ~ exists index field,
      name = "G" ++ index ++ "." ++ field /\
      isDigits index = true /\ field <> "" /\ all isDot field = true.
Proof.
  split.
  - intros Hnil (index & field & -> & Hi & Hf & Hd).
    rewrite FindStringSubmatch_match in Hnil by assumption. discriminate.
  - intros Hno.
    destruct (FindStringSubmatch_inv name) as [H | (i & f & _ & H)]; [exact H|].
    exfalso. apply Hno. eauto.
Qed.

End Regexp.

(** ** [Itoa] writes a numeral that [ParseInt] reads back *)

Section Itoa.

Import strconv decimal regexp.

Lemma string_of_uint_digits d :
  all isDigit (NilEmpty.string_of_uint d) = true.
Proof. induction d; simpl; auto. Qed.

Lemma digitsValue_string_of_uint d : forall acc,
  digitsValue (NilEmpty.string_of_uint d) (Z.pos acc) = Z.pos (Pos.of_uint_acc d acc).
Proof.
  induction d; intros acc; simpl; try reflexivity;
    match goal with
    | |- digitsValue _ ?a = _ =>
        match goal with
        | |- _ = Z.pos (Pos.of_uint_acc _ ?b) =>
            replace a with (Z.pos b) by (unfold byteVal; simpl; lia)
        end
    end; apply IHd.
Qed.

Lemma digitsValue_string_of_uint_0 d :
  digitsValue (NilEmpty.string_of_uint d) 0 = Z.of_N (Pos.of_uint d).
Proof.
  induction d; simpl; try reflexivity; try exact IHd;
    match goal with
    | |- digitsValue _ ?a = _ =>
        match goal with
        | |- _ = Z.pos (Pos.of_uint_acc _ ?b) =>
            replace a with (Z.pos b) by (unfold byteVal; simpl; lia)
        end
    end; apply digitsValue_string_of_uint.
Qed.

Lemma Itoa_nonneg i :
  0 <= i -> isDigits (Itoa i) = true /\ digitsValue (Itoa i) 0 = i.
Proof.
  intros Hi. destruct i as [|p|p]; [split; reflexivity| |lia].
  unfold Itoa. simpl Z.to_int. unfold NilZero.string_of_int, NilZero.string_of_uint.
  pose proof (DecimalPos.Unsigned.to_uint_nonnil p) as Hnn.
  destruct (Pos.to_uint p) as [|u|u|u|u|u|u|u|u|u|u] eqn:E; [congruence|..].
  all: rewrite <- E; split.
  all: try (rewrite digitsValue_string_of_uint_0, DecimalPos.Unsigned.of_to; reflexivity).
  all: unfold isDigits; rewrite string_of_uint_digits, E; reflexivity.
Qed.

Lemma Itoa_isDecimal i : 0 <= i -> isDecimal (Itoa i) = true /\ decimalValue (Itoa i) = i.
Proof.
  intros Hi. destruct (Itoa_nonneg i Hi) as [Hd Hv].
  unfold isDecimal, decimalValue.
  destruct (Itoa i) as [|c r] eqn:E; [discriminate|].
  assert (Hc : isDigit c = true).
  { unfold isDigits in Hd. apply andb_true_iff in Hd as [_ Hd]. simpl in Hd.
    apply andb_true_iff in Hd as [Hc _]. exact Hc. }
  assert (Hs : Ascii.eqb c "+"%char = false /\ Ascii.eqb c "-"%char = false).
  { split; apply Ascii.eqb_neq; intros ->; discriminate. }
  destruct Hs as [-> ->]. simpl. auto.
Qed.

(** Every index the request loop can print within the 8-bit bound is read
    back by the decoder as the same index. *)
Lemma ParseInt_Itoa i :
  0 <= i <= 127 -> ParseInt (Itoa i) 10 8 = (i, None).
Proof.
  intros Hi. destruct (Itoa_isDecimal i ltac:(lia)) as [Hd Hv].
  apply (ParseInt_ok_iff 8 ltac:(auto)). rewrite Hv. simpl. auto with zarith.
Qed.

End Itoa.

(** ** Slices *)

Lemma bind_Returned {A B : Type} (a : A) (k : A -> outcome B) :
  (Returned a ≫= k) = k a.
Proof. reflexivity. Qed.

Lemma bind_Panicked {A B : Type} (p : panic) (k : A -> outcome B) :
  (Panicked p ≫= k) = Panicked p.
Proof. reflexivity. Qed.

Section Slices.

Context {A : Type}.
Implicit Types (s : list A) (i : Z) (f : A -> A).

Lemma alter_alter_same f g (n : nat) s :
  alter f n (alter g n s) = alter (fun x => f (g x)) n s.
Proof.
  revert n. induction s as [|x s IH]; intros [|n]; simpl; try reflexivity.
  f_equal. apply IH.
Qed.

Lemma alter_alter_ne f g (n m : nat) s :
  n <> m -> alter f n (alter g m s) = alter g m (alter f n s).
Proof.
  revert n m. induction s as [|x s IH]; intros [|n] [|m] Hne; simpl;
    try reflexivity; try congruence.
  f_equal. apply IH. congruence.
Qed.

Lemma make_in (size : Z) (zero : A) (n : Z) :
  0 <= n -> size * n <= maxAlloc ->
  make size zero n = Returned (replicate (Z.to_nat n) zero).
Proof.
  intros H0 Hmax. unfold make.
  destruct (Z.ltb_spec n 0); [lia|].
  destruct (Z.ltb_spec maxAlloc (size * n)); [lia | reflexivity].
Qed.


Lemma make_Returned_inv (size : Z) (zero : A) (n : Z) s :
  make size zero n = Returned s ->
  0 <= n /\ size * n <= maxAlloc /\ s = replicate (Z.to_nat n) zero.
Proof.
  unfold make.
  destruct (Z.ltb_spec n 0); [intros [=]|].
  destruct (Z.ltb_spec maxAlloc (size * n)); [intros [=]|].
  simpl. intros [= <-]. auto.
Qed.

Lemma checkIndex_in s i :
  0 <= i < Z.of_nat (length s) -> checkIndex s i = Returned tt.
Proof.
  intros Hi. unfold checkIndex.
  destruct (Z.leb_spec 0 i); [|lia].
  destruct (Z.ltb_spec i (Z.of_nat (length s))); [reflexivity | lia].
Qed.

Lemma checkIndex_out s i :
  ~ 0 <= i < Z.of_nat (length s) ->
  checkIndex s i = Panicked (IndexOutOfRange i (Z.of_nat (length s))).
Proof.
  intros Hi. unfold checkIndex.
  destruct (Z.leb_spec 0 i); [|reflexivity].
  destruct (Z.ltb_spec i (Z.of_nat (length s))); [lia | reflexivity].
Qed.

Lemma store_in s i f :
  0 <= i < Z.of_nat (length s) ->
  store s i f = Returned (alter f (Z.to_nat i) s).
Proof. intros Hi. unfold store. rewrite checkIndex_in by exact Hi. reflexivity. Qed.

Lemma store_out s i f :
  ~ 0 <= i < Z.of_nat (length s) ->
  store s i f = Panicked (IndexOutOfRange i (Z.of_nat (length s))).
Proof. intros Hi. unfold store. rewrite checkIndex_out by exact Hi. reflexivity. Qed.


Lemma store_length s i f s' : store s i f = Returned s' -> length s' = length s.
Proof.
  unfold store, checkIndex. destruct (_ && _); simpl; [|intros [=]].
  intros [= <-]. apply length_alter.
Qed.

End Slices.

(** ** The decoding loop of [GetSensors] *)

Section Decode.

Import strconv decimal regexp.

(** The loop body on an item whose name matches: one bounds check, then the
    record at the parsed index gets its [Id] and the field of the [switch]. *)
Lemma GetSensors_item_matched sensors item index field :
  sensorInfoParser_FindStringSubmatch (itemName item)
    = [itemName item; index; field] ->
  GetSensors_item sensors item =
    let i := fst (ParseInt index 10 8) in
    if (0 <=? i) && (i <? Z.of_nat (length sensors)) then
      Returned (alter (fun s => fieldAssign field (itemValue item) (setId i s))
                      (Z.to_nat i) sensors)
    else Panicked (IndexOutOfRange i (Z.of_nat (length sensors))).
Proof.
  intros Hm. unfold GetSensors_item. rewrite Hm.
  change (load [itemName item; index; field] 1) with (Returned index).
  change (load [itemName item; index; field] 2) with (Returned field).
  rewrite bind_Returned.
  destruct (ParseInt index 10 8) as [i e]. simpl fst. cbv zeta.
  unfold checkIndex at 1.
  destruct ((0 <=? i) && (i <? Z.of_nat (length sensors))) eqn:Hin;
    [|reflexivity].
  rewrite bind_Returned.
  apply andb_true_iff in Hin as [H0 H1].
  apply Z.leb_le in H0. apply Z.ltb_lt in H1.
  unfold fieldAssign, floatValueOf, intValueOf.
  destruct (ParseInt (itemValue item) 10 16) as [iv err]. simpl fst.
  rewrite bind_Returned.
  rewrite (store_in sensors i) by lia.
  rewrite bind_Returned.
  repeat (destruct (String.eqb field _);
          [rewrite store_in by (rewrite length_alter; lia);
           rewrite alter_alter_same; reflexivity|]).
  reflexivity.
Qed.

Lemma GetSensors_item_unmatched sensors item :
  sensorInfoParser_FindStringSubmatch (itemName item) = [] ->
  GetSensors_item sensors item = Returned sensors.
Proof. intros Hm. unfold GetSensors_item. rewrite Hm. reflexivity. Qed.

Lemma GetSensors_item_length sensors item sensors' :
  GetSensors_item sensors item = Returned sensors' ->
  length sensors' = length sensors.
Proof.
  destruct (FindStringSubmatch_inv (itemName item)) as [H | (i & f & H & _)].
  - rewrite GetSensors_item_unmatched by exact H. intros [= <-]. reflexivity.
  - rewrite (GetSensors_item_matched _ _ _ _ H). cbv zeta.
    destruct (_ && _); [|intros [=]]. intros [= <-]. apply length_alter.
Qed.

Lemma GetSensors_decode_length items : forall sensors sensors',
  GetSensors_decode sensors items = Returned sensors' ->
  length sensors' = length sensors.
Proof.
  induction items as [|item rest IH]; intros sensors sensors'; simpl.
  - intros [= <-]. reflexivity.
  - destruct (GetSensors_item sensors item) as [s1|p] eqn:E; [|intros [=]].
    intros H. apply IH in H. rewrite H. eapply GetSensors_item_length, E.
Qed.

Lemma GetSensors_decode_app (l1 l2 : response) sensors :
  GetSensors_decode sensors (l1 ++ l2)%list =
    sensors' ← GetSensors_decode sensors l1; GetSensors_decode sensors' l2.
Proof.
  revert sensors. induction l1 as [|item rest IH]; intros sensors; simpl.
  - reflexivity.
  - destruct (GetSensors_item sensors item) as [s1|p]; [|reflexivity].
    apply IH.
Qed.

End Decode.

(** ** The request of [GetSensors] *)

Section Request.

Lemma store_app_r {A : Type} (prefix l : list A) (k : Z) (f : A -> A) :
  0 <= k < Z.of_nat (length l) ->
  store (prefix ++ l)%list (Z.of_nat (length prefix) + k) f
    = Returned (prefix ++ alter f (Z.to_nat k) l)%list.
Proof.
  intros Hk. rewrite store_in by (rewrite length_app; lia).
  replace (Z.to_nat (Z.of_nat (length prefix) + k))
    with (length prefix + Z.to_nat k)%nat by lia.
  rewrite alter_app_r. reflexivity.
Qed.

(** One round of the loop fills the five places of its index. *)
Lemma GetSensors_fill_round (i : nat) (prefix rest : list string) a0 a1 a2 a3 a4 :
  length prefix = (5 * i)%nat ->
  Z.of_nat i * 5 + 4 <= 9223372036854775807 ->
  GetSensors_fill (Z.of_nat i) (prefix ++ [a0; a1; a2; a3; a4] ++ rest)%list
    = Returned (prefix ++ requestNames (Z.of_nat i) ++ rest)%list.
Proof.
  intros Hlen Hmax. unfold GetSensors_fill.
  rewrite (toInt64_small (Z.of_nat i * 5)) by lia.
  rewrite !toInt64_small by lia.
  replace (Z.of_nat i * 5) with (Z.of_nat (length prefix)) by lia.
  rewrite store_app_r by (simpl; lia). rewrite bind_Returned.
  rewrite store_app_r by (simpl; lia). rewrite bind_Returned.
  rewrite store_app_r by (simpl; lia). rewrite bind_Returned.
  rewrite store_app_r by (simpl; lia). rewrite bind_Returned.
  rewrite store_app_r by (simpl; lia).
  reflexivity.
Qed.

Lemma GetSensors_fill_loop (m : nat) : forall (i : nat) (prefix : list string),
  length prefix = (5 * i)%nat ->
  Z.of_nat (i + m) * 5 <= 9223372036854775807 ->
  forRange m (Z.of_nat i) GetSensors_fill (prefix ++ replicate (5 * m) "")%list
    = Returned (prefix ++ flat_map (fun k => requestNames (Z.of_nat k)) (seq i m))%list.
Proof.
  induction m as [|m IH]; intros i prefix Hlen Hmax.
  - reflexivity.
  - replace (5 * S m)%nat with (5 + 5 * m)%nat by lia.
    rewrite replicate_add. cbn [forRange].
    change (replicate 5 "") with ["" ; ""; ""; ""; ""].
    rewrite GetSensors_fill_round by (assumption || lia).
    rewrite bind_Returned.
    rewrite toInt64_small by lia.
    replace (Z.of_nat i + 1) with (Z.of_nat (S i)) by lia.
    rewrite (app_assoc prefix).
    rewrite IH.
    + cbn [seq flat_map]. rewrite <- app_assoc. reflexivity.
    + rewrite length_app, Hlen. simpl. lia.
    + lia.
Qed.

(** The request is the five names of index 0, then of index 1, and so on
    up to [sensorCount - 1]. *)
Lemma GetSensors_request_eq sensorCount :
  0 <= sensorCount ->
  sizeof_readRequestItem * (sensorCount * 5) <= maxAlloc ->
  GetSensors_request sensorCount =
    Returned (flat_map (fun k => requestNames (Z.of_nat k))
                       (seq 0 (Z.to_nat sensorCount))).
Proof.
  intros H0 Hmax. unfold GetSensors_request.
  assert (Hint : sensorCount * 5 <= 9223372036854775807)
    by (unfold sizeof_readRequestItem, maxAlloc in Hmax; lia).
  rewrite toInt64_small by lia.
  rewrite make_in by (assumption || lia).
  rewrite bind_Returned.
  replace (Z.to_nat (sensorCount * 5)) with (5 * Z.to_nat sensorCount)%nat by lia.
  apply (GetSensors_fill_loop (Z.to_nat sensorCount) 0 []); [reflexivity | lia].
Qed.





Lemma flat_map_requestNames_length (l : list nat) :
  length (flat_map (fun k => requestNames (Z.of_nat k)) l) = (5 * length l)%nat.
Proof. induction l as [|x l IH]; simpl; [reflexivity | rewrite IH; lia]. Qed.


End Request.




(** ** Indices as the decoder reads them *)

Section Index.

Import strconv decimal regexp.

Lemma isDigits_isDecimal s :
  isDigits s = true -> isDecimal s = true /\ decimalValue s = digitsValue s 0.
Proof.
  intros Hd. unfold isDecimal, decimalValue.
  destruct s as [|c r]; [discriminate|].
  assert (Hc : isDigit c = true).
  { unfold isDigits in Hd. apply andb_true_iff in Hd as [_ Hd]. simpl in Hd.
    apply andb_true_iff in Hd as [Hc _]. exact Hc. }
  assert (Hs : Ascii.eqb c "+"%char = false /\ Ascii.eqb c "-"%char = false).
  { split; apply Ascii.eqb_neq; intros ->; discriminate. }
  destruct Hs as [-> ->]. simpl. auto.
Qed.

(** The index group of a match is a string of digits: its parse either
    gives the number written, or 127 with a range error. *)
Lemma ParseInt_index index :
  isDigits index = true ->
  ParseInt index 10 8 =
    if digitsValue index 0 <=? 127 then (digitsValue index 0, None)
    else (127, Some ErrRange).
Proof.
  intros Hd. destruct (isDigits_isDecimal index Hd) as [Hdec Hv].
  rewrite (ParseInt_decimal 8 ltac:(auto) index Hdec). cbv zeta. rewrite Hv.
  apply isDigits_inv in Hd as [_ Hd].
  pose proof (digitsValue_ge index 0 Hd ltac:(lia)) as Hge.
  change (2 ^ (8 - 1)) with 128.
  repeat case_cmp; try lia; reflexivity.
Qed.

Lemma ParseInt_index_bound index :
  isDigits index = true -> 0 <= fst (ParseInt index 10 8) <= 127.
Proof.
  intros Hd. rewrite (ParseInt_index index Hd).
  apply isDigits_inv in Hd as [_ Hd].
  pose proof (digitsValue_ge index 0 Hd ltac:(lia)) as Hge.
  destruct (Z.leb_spec (digitsValue index 0) 127); simpl; lia.
Qed.

(** No step of the decoder writes to a position above 127. *)
Lemma GetSensors_item_above_127 sensors item sensors' (j : nat) :
  GetSensors_item sensors item = Returned sensors' ->
  (127 < j)%nat -> sensors' !! j = sensors !! j.
Proof.
  intros Hstep Hj.
  destruct (FindStringSubmatch_inv (itemName item))
    as [H | (index & field & H & _ & Hd & _)].
  - rewrite GetSensors_item_unmatched in Hstep by exact H.
    injection Hstep as <-. reflexivity.
  - rewrite (GetSensors_item_matched _ _ _ _ H) in Hstep. cbv zeta in Hstep.
    pose proof (ParseInt_index_bound index Hd) as Hb.
    destruct (_ && _); [|discriminate]. injection Hstep as <-.
    apply list_lookup_alter_ne. lia.
Qed.

Lemma GetSensors_decode_above_127 items : forall sensors sensors' (j : nat),
  GetSensors_decode sensors items = Returned sensors' ->
  (127 < j)%nat -> sensors' !! j = sensors !! j.
Proof.
  induction items as [|item rest IH]; intros sensors sensors' j; simpl.
  - intros [= <-] _. reflexivity.
  - destruct (GetSensors_item sensors item) as [s1|p] eqn:E; [|intros [=]].
    rewrite bind_Returned. intros H Hj.
    rewrite (IH _ _ _ H Hj). eapply GetSensors_item_above_127; eassumption.
Qed.

End Index.

(** ** The count query and the read path *)

Section Reading.

Import strconv decimal regexp.

Variable marshal : readRequest -> string * error.
Variable post : string -> string -> string -> postResult.
Variable unmarshal : string -> option response.

Lemma fits_ParseInt bitSize s :
  bitSize = 8 \/ bitSize = 16 ->
  fits bitSize s = true <-> ParseInt s 10 bitSize = (decimalValue s, None).
Proof.
  intros Hb. rewrite (ParseInt_ok_iff bitSize Hb). unfold fits.
  rewrite !andb_true_iff, Z.leb_le, Z.ltb_lt. tauto.
Qed.

Lemma not_fits_ParseInt bitSize s :
  bitSize = 8 \/ bitSize = 16 ->
  fits bitSize s = false -> snd (ParseInt s 10 bitSize) <> None.
Proof.
  intros Hb Hf. destruct (ParseInt s 10 bitSize) as [v [e|]] eqn:E;
    [simpl; discriminate|].
  apply (ParseInt_ok_iff bitSize Hb) in E as (Hd & -> & Hr).
  unfold fits in Hf. rewrite Hd in Hf. simpl in Hf.
  destruct (Z.leb_spec (- 2 ^ (bitSize - 1)) (decimalValue s)); [|lia].
  destruct (Z.ltb_spec (decimalValue s) (2 ^ (bitSize - 1))); [discriminate | lia].
Qed.

Lemma GetSensorCount_of_response managementURL (resp : response) :
  readValues marshal post unmarshal managementURL ["totalNumberOfDevices"]
    = (resp, None) ->
  GetSensorCount marshal post unmarshal managementURL =
    match resp with
    | [] => (0, Some "no values returned")
    | item0 :: _ =>
        if fits 8 (itemValue item0) then (decimalValue (itemValue item0), None)
        else (0, Some ("Unexpected value " ++ itemValue item0))
    end.
Proof.
  intros Hr. unfold GetSensorCount. rewrite Hr.
  destruct resp as [|item0 rest]; [reflexivity|].
  destruct (fits 8 (itemValue item0)) eqn:Hf.
  - apply (fits_ParseInt 8 _ ltac:(auto)) in Hf. rewrite Hf. reflexivity.
  - apply (not_fits_ParseInt 8 _ ltac:(auto)) in Hf.
    destruct (ParseInt (itemValue item0) 10 8) as [v [e|]]; [reflexivity|].
    simpl in Hf. congruence.
Qed.

(** [GetSensors] once its request is built and answered: a fresh slice
    of [sensorCount] zero records, decoded item by item. *)
Lemma GetSensors_of_response managementURL sensorCount req (resp : response) :
  GetSensors_request sensorCount = Returned req ->
  readValues marshal post unmarshal managementURL req = (resp, None) ->
  GetSensors marshal post unmarshal managementURL sensorCount =
    sensors ← make sizeof_Sensor zeroSensor sensorCount;
    sensors ← GetSensors_decode sensors resp;
    Returned (sensors, None).
Proof.
  intros Hreq Hr. unfold GetSensors. rewrite Hreq, bind_Returned, Hr.
  reflexivity.
Qed.

Lemma GetSensors_Returned_inv managementURL sensorCount sensors :
  GetSensors marshal post unmarshal managementURL sensorCount
    = Returned (sensors, None) ->
  exists req resp,
    GetSensors_request sensorCount = Returned req /\
    readValues marshal post unmarshal managementURL req = (resp, None) /\
    0 <= sensorCount /\
    GetSensors_decode (replicate (Z.to_nat sensorCount) zeroSensor) resp
      = Returned sensors.
Proof.
  unfold GetSensors.
  destruct (GetSensors_request sensorCount) as [req|p]; [|intros [=]].
  rewrite bind_Returned.
  destruct (readValues marshal post unmarshal managementURL req)
    as [resp [err|]] eqn:Hr; [intros [=]|].
  destruct (make sizeof_Sensor zeroSensor sensorCount) as [s0|p] eqn:Em;
    [|intros [=]].
  apply make_Returned_inv in Em as (H0 & _ & ->).
  rewrite bind_Returned.
  destruct (GetSensors_decode _ resp) as [s|p] eqn:Hd; [|intros [=]].
  rewrite bind_Returned. intros [= <-].
  exists req, resp. auto.
Qed.

End Reading.

(** C6. When the decoded response of the count query holds no item,
    [GetSensorCount] fails with the error "no values returned" (it does not
    report a count of 0); when the value of the first item is no decimal
    integer the parser accepts, it fails with an error; otherwise it returns
    the integer the value writes. *)
Theorem GetSensorCount_protocol_errors
    (marshal : readRequest -> string * error)
    (post : string -> string -> string -> postResult)
    (unmarshal : string -> option response)
    (managementURL : string) (resp : response) :
  readValues marshal post unmarshal managementURL ["totalNumberOfDevices"]
    = (resp, None) ->
  (resp = [] ->
     GetSensorCount marshal post unmarshal managementURL
       = (0, Some "no values returned")) /\
  (forall item0 rest, resp = item0 :: rest ->
     (decimal.isDecimal (itemValue item0) = false ->
        GetSensorCount marshal post unmarshal managementURL
          = (0, Some ("Unexpected value " ++ itemValue item0))) /\
     (decimal.fits 8 (itemValue item0) = false ->
        GetSensorCount marshal post unmarshal managementURL
          = (0, Some ("Unexpected value " ++ itemValue item0))) /\
     (decimal.fits 8 (itemValue item0) = true ->
        GetSensorCount marshal post unmarshal managementURL
          = (decimal.decimalValue (itemValue item0), None))).
Proof.
  intros Hr. rewrite (GetSensorCount_of_response _ _ _ _ _ Hr).
  split; [intros ->; reflexivity|].
  intros item0 rest ->. repeat split.
  - intros Hd. unfold decimal.fits. rewrite Hd. reflexivity.
  - intros ->. reflexivity.
  - intros ->. reflexivity.
Qed.

Lemma GetSensorCount_protocol_errors_witness :
  GetSensorCount (fun _ => ("", None)) (fun _ _ _ => Body "")
      (fun _ => Some []) "http://roth"
    = (0, Some "no values returned") /\
  GetSensorCount (fun _ => ("", None)) (fun _ _ _ => Body "")
      (fun _ => Some [mkItem "totalNumberOfDevices" "4"]) "http://roth"
    = (4, None) /\
  GetSensorCount (fun _ => ("", None)) (fun _ _ _ => Body "")
      (fun _ => Some [mkItem "totalNumberOfDevices" "four"]) "http://roth"
    = (0, Some "Unexpected value four").
Proof.
  split; [|split].
  - destruct (GetSensorCount_protocol_errors (fun _ => ("", None))
                (fun _ _ _ => Body "") (fun _ => Some []) "http://roth" []
                eq_refl) as [H _].
    exact (H eq_refl).
  - destruct (GetSensorCount_protocol_errors (fun _ => ("", None))
                (fun _ _ _ => Body "")
                (fun _ => Some [mkItem "totalNumberOfDevices" "4"]) "http://roth"
                [mkItem "totalNumberOfDevices" "4"] eq_refl) as [_ H].
    destruct (H _ [] eq_refl) as (_ & _ & Hfits). exact (Hfits eq_refl).
  - destruct (GetSensorCount_protocol_errors (fun _ => ("", None))
                (fun _ _ _ => Body "")
                (fun _ => Some [mkItem "totalNumberOfDevices" "four"]) "http://roth"
                [mkItem "totalNumberOfDevices" "four"] eq_refl) as [_ H].
    destruct (H _ [] eq_refl) as (Hnot & _ & _). exact (Hnot eq_refl).
Defined.

(** C9. The count and the sensor indices are parsed with a signed 8-bit
    bound.  A count written as a decimal integer above 127 or below -128
    makes [GetSensorCount] return an error, not that count.  An index group
    that writes a number above 127 does not parse to that number (the parse
    leaves 127 and a range error), every step of the decoder leaves the
    positions above 127 as they were, and so [GetSensors] returns the records
    above 127 as the zero record. *)
Theorem count_and_index_8_bit_bound
    (marshal : readRequest -> string * error)
    (post : string -> string -> string -> postResult)
    (unmarshal : string -> option response)
    (managementURL : string) :
  (forall item0 rest,
     readValues marshal post unmarshal managementURL ["totalNumberOfDevices"]
       = (item0 :: rest, None) ->
     decimal.isDecimal (itemValue item0) = true ->
     127 < decimal.decimalValue (itemValue item0)
       \/ decimal.decimalValue (itemValue item0) < -128 ->
     GetSensorCount marshal post unmarshal managementURL
       = (0, Some ("Unexpected value " ++ itemValue item0))) /\
  (forall index,
     decimal.isDigits index = true -> 127 < decimal.digitsValue index 0 ->
     strconv.ParseInt index 10 8 = (127, Some strconv.ErrRange)) /\
  (forall sensors items sensors' (j : nat),
     GetSensors_decode sensors items = Returned sensors' ->
     (127 < j)%nat -> sensors' !! j = sensors !! j) /\
  (forall sensorCount sensors (j : nat),
     GetSensors marshal post unmarshal managementURL sensorCount
       = Returned (sensors, None) ->
     (127 < j)%nat -> Z.of_nat j < sensorCount ->
     sensors !! j = Some zeroSensor).
Proof.
  repeat split.
  - intros item0 rest Hr Hd Hv.
    rewrite (GetSensorCount_of_response _ _ _ _ _ Hr).
    unfold decimal.fits. rewrite Hd. change (2 ^ (8 - 1)) with 128.
    repeat case_cmp; try reflexivity; lia.
  - intros index Hd Hv. rewrite (ParseInt_index index Hd).
    case_cmp; [lia | reflexivity].
  - intros sensors items sensors' j. apply GetSensors_decode_above_127.
  - intros sensorCount sensors j H Hj Hn.
    apply GetSensors_Returned_inv in H as (req & resp & _ & _ & H0 & Hd).
    rewrite (GetSensors_decode_above_127 _ _ _ _ Hd Hj).
    apply lookup_replicate_2. lia.
Qed.

Lemma count_and_index_8_bit_bound_witness :
  GetSensorCount (fun _ => ("", None)) (fun _ _ _ => Body "")
      (fun _ => Some [mkItem "totalNumberOfDevices" "128"]) "http://roth"
    = (0, Some "Unexpected value 128") /\
  strconv.ParseInt "128" 10 8 = (127, Some strconv.ErrRange) /\
  replicate 130 zeroSensor !! 128%nat = Some zeroSensor.
Proof.
  pose proof (count_and_index_8_bit_bound (fun _ => ("", None))
                (fun _ _ _ => Body "")
                (fun _ => Some [mkItem "totalNumberOfDevices" "128"])
                "http://roth") as (Hcount & Hindex & Hdecode & _).
  split; [|split].
  - apply (Hcount (mkItem "totalNumberOfDevices" "128") [] eq_refl eq_refl).
    left. vm_compute. reflexivity.
  - apply Hindex; vm_compute; reflexivity.
  - rewrite <- (Hdecode (replicate 130 zeroSensor)
                  [mkItem "G128.RaumTemp" "2000"; mkItem "G129.RaumTemp" "2000"]
                  (alter (fun s => fieldAssign "RaumTemp" "2000" (setId 127 s)) 127%nat
                     (alter (fun s => fieldAssign "RaumTemp" "2000" (setId 127 s)) 127%nat
                       (replicate 130 zeroSensor)))
                  128%nat).
    + reflexivity.
    + vm_compute. reflexivity.
    + lia.
Defined.

(** ** Items that the decoder cannot place *)

Section Misplaced.

Import strconv decimal regexp.

Lemma addressedIndex_Some item i :
  addressedIndex item = Some i ->
  exists index field,
    sensorInfoParser_FindStringSubmatch (itemName item)
      = [itemName item; index; field] /\
    isDigits index = true /\ fst (ParseInt index 10 8) = i.
Proof.
  unfold addressedIndex.
  destruct (FindStringSubmatch_inv (itemName item))
    as [H | (index & field & H & _ & Hd & _)]; rewrite H; [intros [=]|].
  intros [= <-]. eauto.
Qed.

Lemma addressedIndex_None item :
  addressedIndex item = None ->
  sensorInfoParser_FindStringSubmatch (itemName item) = [].
Proof.
  unfold addressedIndex.
  destruct (FindStringSubmatch_inv (itemName item))
    as [H | (index & field & H & _)]; rewrite H; [reflexivity | intros [=]].
Qed.

Lemma addressedIndex_name item index field :
  itemName item = "G" ++ index ++ "." ++ field ->
  isDigits index = true -> field <> "" -> all isDot field = true ->
  sensorInfoParser_FindStringSubmatch (itemName item)
    = [itemName item; index; field] /\
  addressedIndex item = Some (fst (ParseInt index 10 8)).
Proof.
  intros Hn Hd Hf Hdot. unfold addressedIndex.
  rewrite Hn, FindStringSubmatch_match by assumption. auto.
Qed.

(** An item addressed at or beyond the length of the slice stops the
    decoding with a panic. *)
Lemma GetSensors_item_beyond sensors item i :
  addressedIndex item = Some i -> Z.of_nat (length sensors) <= i ->
  GetSensors_item sensors item
    = Panicked (IndexOutOfRange i (Z.of_nat (length sensors))).
Proof.
  intros (index & field & H & _ & <-)%addressedIndex_Some Hi.
  rewrite (GetSensors_item_matched _ _ _ _ H). cbv zeta.
  repeat case_cmp; try reflexivity; lia.
Qed.

Lemma GetSensors_decode_beyond (items : response) : forall sensors item i,
  In item items ->
  addressedIndex item = Some i -> Z.of_nat (length sensors) <= i ->
  panics (GetSensors_decode sensors items).
Proof.
  induction items as [|x rest IH]; intros sensors item i Hin Ha Hi; [destruct Hin|].
  simpl. destruct (GetSensors_item sensors x) as [s1|p] eqn:E.
  - rewrite bind_Returned. destruct Hin as [-> | Hin].
    + rewrite (GetSensors_item_beyond _ _ _ Ha Hi) in E. discriminate.
    + apply (IH s1 item i Hin Ha).
      rewrite (GetSensors_item_length _ _ _ E). exact Hi.
  - exists p. reflexivity.
Qed.

(** An item whose name does not match is passed over: the decoding is that
    of the response without it. *)
Lemma GetSensors_decode_skips_unmatched (l1 l2 : response) sensors item :
  sensorInfoParser_FindStringSubmatch (itemName item) = [] ->
  GetSensors_decode sensors (l1 ++ item :: l2)%list
    = GetSensors_decode sensors (l1 ++ l2)%list.
Proof.
  intros H. rewrite !GetSensors_decode_app.
  destruct (GetSensors_decode sensors l1) as [s|p]; [|reflexivity].
  rewrite !bind_Returned. simpl.
  rewrite (GetSensors_item_unmatched _ _ H). reflexivity.
Qed.

End Misplaced.

(** C1. An item [G<index>.<field>] whose index parses and lies at or beyond
    [sensorCount] is not skipped: the indexed access of the loop body panics
    (index out of range), so [GetSensors] returns no sensors at all.  The
    run-time check does keep the write from landing outside the slice. *)
Theorem GetSensors_index_out_of_range_panics
    (marshal : readRequest -> string * error)
    (post : string -> string -> string -> postResult)
    (unmarshal : string -> option response)
    (managementURL : string) (sensorCount : Z)
    (req : readRequest) (resp : response)
    (item : responseItem) (index field : string) (i : Z) :
  GetSensors_request sensorCount = Returned req ->
  readValues marshal post unmarshal managementURL req = (resp, None) ->
  In item resp ->
  itemName item = "G" ++ index ++ "." ++ field ->
  decimal.isDigits index = true -> field <> "" ->
  regexp.all regexp.isDot field = true ->
  strconv.ParseInt index 10 8 = (i, None) ->
  sensorCount <= i ->
  panics (GetSensors marshal post unmarshal managementURL sensorCount).
Proof.
  intros Hreq Hr Hin Hn Hd Hf Hdot Hp Hi.
  rewrite (GetSensors_of_response _ _ _ _ _ _ _ Hreq Hr).
  destruct (make sizeof_Sensor zeroSensor sensorCount) as [s0|p] eqn:Em;
    [|eexists; reflexivity].
  apply make_Returned_inv in Em as (H0 & _ & ->).
  rewrite bind_Returned.
  destruct (addressedIndex_name item index field Hn Hd Hf Hdot) as [_ Ha].
  rewrite Hp in Ha. simpl in Ha.
  destruct (GetSensors_decode_beyond resp (replicate (Z.to_nat sensorCount) zeroSensor)
              item i Hin Ha) as [p Hpanic].
  { rewrite length_replicate. lia. }
  exists p. rewrite Hpanic. reflexivity.
Qed.

Lemma GetSensors_index_out_of_range_panics_witness :
  panics (GetSensors (fun _ => ("", None)) (fun _ _ _ => Body "")
            (fun _ => Some [mkItem "G0.RaumTemp" "2086"; mkItem "G1.RaumTemp" "1903"])
            "http://roth" 1).
Proof.
  apply (GetSensors_index_out_of_range_panics
           (fun _ => ("", None)) (fun _ _ _ => Body "")
           (fun _ => Some [mkItem "G0.RaumTemp" "2086"; mkItem "G1.RaumTemp" "1903"])
           "http://roth" 1
           ["G0.RaumTemp"; "G0.SollTemp"; "G0.name"; "G0.WeekProg"; "G0.OPmode"]
           [mkItem "G0.RaumTemp" "2086"; mkItem "G1.RaumTemp" "1903"]
           (mkItem "G1.RaumTemp" "1903") "1" "RaumTemp" 1).
  - reflexivity.
  - reflexivity.
  - right. left. reflexivity.
  - reflexivity.
  - reflexivity.
  - discriminate.
  - reflexivity.
  - reflexivity.
  - lia.
Defined.

(** The boundary case evaluated: with one sensor, the item [G1.RaumTemp]
    makes [GetSensors] panic although [G0.RaumTemp] was well formed. *)
Example GetSensors_index_at_count :
  GetSensors (fun _ => ("", None)) (fun _ _ _ => Body "")
    (fun _ => Some [mkItem "G0.RaumTemp" "2086"; mkItem "G1.RaumTemp" "1903"])
    "http://roth" 1
  = Panicked (IndexOutOfRange 1 1).
Proof. vm_compute. reflexivity. Qed.

(** C2. A name that does not match the pattern is skipped and changes
    nothing.  A name that matches but whose index group does not parse is
    not skipped: the error is only printed, and the loop body goes on with
    the 127 that the failed parse left, so it panics when the slice has at
    most 127 records and rewrites record 127 otherwise. *)
Theorem GetSensors_unparsed_index_not_skipped
    (sensors : list Sensor) (item : responseItem) (index field : string)
    (v : Z) (e : strconv.numError) :
  itemName item = "G" ++ index ++ "." ++ field ->
  decimal.isDigits index = true -> field <> "" ->
  regexp.all regexp.isDot field = true ->
  strconv.ParseInt index 10 8 = (v, Some e) ->
  v = 127 /\ e = strconv.ErrRange /\
  GetSensors_item sensors item =
    if 127 <? Z.of_nat (length sensors) then
      Returned (alter (fun s => fieldAssign field (itemValue item) (setId 127 s))
                      127%nat sensors)
    else Panicked (IndexOutOfRange 127 (Z.of_nat (length sensors))).
Proof.
  intros Hn Hd Hf Hdot Hp.
  destruct (addressedIndex_name item index field Hn Hd Hf Hdot) as [Hm _].
  rewrite (GetSensors_item_matched _ _ _ _ Hm). cbv zeta.
  rewrite Hp. rewrite (ParseInt_index index Hd) in Hp.
  destruct (Z.leb_spec (decimal.digitsValue index 0) 127); [discriminate|].
  injection Hp as <- <-.
  simpl fst. change (Z.to_nat 127) with 127%nat.
  split; [reflexivity|]. split; [reflexivity|].
  repeat case_cmp; try reflexivity; lia.
Qed.

Lemma GetSensors_unparsed_index_not_skipped_witness :
  GetSensors_item [zeroSensor] (mkItem "G128.RaumTemp" "1903")
    = Panicked (IndexOutOfRange 127 1).
Proof.
  apply (GetSensors_unparsed_index_not_skipped [zeroSensor]
           (mkItem "G128.RaumTemp" "1903") "128" "RaumTemp" 127 strconv.ErrRange).
  - reflexivity.
  - reflexivity.
  - discriminate.
  - reflexivity.
  - reflexivity.
Defined.

(** The two faces of the failure, evaluated: one sensor (panic), and 128
    sensors (the item [G300.name] renames sensor 127). *)
Example GetSensors_unparsed_index_one_sensor :
  GetSensors (fun _ => ("", None)) (fun _ _ _ => Body "")
    (fun _ => Some [mkItem "G0.RaumTemp" "2086"; mkItem "G128.RaumTemp" "1903"])
    "http://roth" 1
  = Panicked (IndexOutOfRange 127 1).
Proof. vm_compute. reflexivity. Qed.

Example GetSensors_unparsed_index_128_sensors :
  GetSensors_decode (replicate 128 zeroSensor) [mkItem "G300.name" "Attic"]
  = Returned (replicate 127 zeroSensor ++ [mkSensor 127 "Attic" f32.zero f32.zero 0 0])%list.
Proof. vm_compute. reflexivity. Qed.

(** The half of C2 that holds: [Gxx.RaumTemp] does not match, and the
    response decodes as if the item were not there. *)
Example GetSensors_skips_Gxx (l1 l2 : response) (sensors : list Sensor) :
  GetSensors_decode sensors (l1 ++ mkItem "Gxx.RaumTemp" "1903" :: l2)%list
    = GetSensors_decode sensors (l1 ++ l2)%list.
Proof. apply GetSensors_decode_skips_unmatched. reflexivity. Qed.

(** ** Fields the [switch] does not know *)

Section Unknown.

Import strconv decimal regexp.

Lemma fieldAssign_setId valueName value a s :
  fieldAssign valueName value (setId a s) = setId a (fieldAssign valueName value s).
Proof.
  unfold fieldAssign. repeat (destruct (String.eqb valueName _); [reflexivity|]).
  reflexivity.
Qed.

Lemma setId_setId a s : setId a (setId a s) = setId a s.
Proof. reflexivity. Qed.

Lemma fieldAssign_Id valueName value s :
  Id (fieldAssign valueName value s) = Id s.
Proof.
  unfold fieldAssign. repeat (destruct (String.eqb valueName _); [reflexivity|]).
  reflexivity.
Qed.

Lemma fieldAssign_unknown valueName value s :
  ~ In valueName knownFields -> fieldAssign valueName value s = s.
Proof.
  intros Hn. unfold fieldAssign.
  repeat match goal with
         | |- context [String.eqb valueName ?f] =>
             destruct (String.eqb_spec valueName f) as [Heq|_];
             [exfalso; apply Hn; rewrite Heq; simpl; tauto|]
         end.
  reflexivity.
Qed.

(** Setting the [Id] of record [i] to [i] commutes with every step of the
    decoder. *)
Lemma GetSensors_item_touch sensors item (i : nat) :
  GetSensors_item (alter (setId (Z.of_nat i)) i sensors) item =
    s ← GetSensors_item sensors item;
    Returned (alter (setId (Z.of_nat i)) i s).
Proof.
  destruct (FindStringSubmatch_inv (itemName item))
    as [H | (index & field & H & _ & Hd & _)].
  - rewrite !GetSensors_item_unmatched by exact H. reflexivity.
  - rewrite !(GetSensors_item_matched _ _ _ _ H). cbv zeta.
    rewrite length_alter.
    pose proof (ParseInt_index_bound index Hd) as Hb.
    destruct (_ && _); [|reflexivity].
    rewrite bind_Returned. f_equal.
    set (j := fst (ParseInt index 10 8)) in *.
    destruct (Nat.eq_dec (Z.to_nat j) i) as [<-|Hne].
    + rewrite !alter_alter_same. apply list_alter_ext; [|reflexivity].
      intros x _. rewrite Z2Nat.id by lia.
      rewrite setId_setId, <- fieldAssign_setId, setId_setId. reflexivity.
    + apply alter_alter_ne. exact Hne.
Qed.

Lemma GetSensors_decode_touch (items : response) : forall sensors (i : nat),
  GetSensors_decode (alter (setId (Z.of_nat i)) i sensors) items =
    s ← GetSensors_decode sensors items;
    Returned (alter (setId (Z.of_nat i)) i s).
Proof.
  induction items as [|item rest IH]; intros sensors i; simpl; [reflexivity|].
  rewrite GetSensors_item_touch.
  destruct (GetSensors_item sensors item) as [s1|p]; [|reflexivity].
  rewrite !bind_Returned. apply IH.
Qed.

(** Once an item has addressed position [i], the record there carries
    [Id = i] until the end of the decoding. *)
Lemma GetSensors_item_keeps_Id sensors item sensors' (i : nat) x :
  GetSensors_item sensors item = Returned sensors' ->
  sensors !! i = Some x -> Id x = Z.of_nat i ->
  exists x', sensors' !! i = Some x' /\ Id x' = Z.of_nat i.
Proof.
  intros Hstep Hx Hid.
  destruct (FindStringSubmatch_inv (itemName item))
    as [H | (index & field & H & _ & Hd & _)].
  - rewrite GetSensors_item_unmatched in Hstep by exact H.
    injection Hstep as <-. eauto.
  - rewrite (GetSensors_item_matched _ _ _ _ H) in Hstep. cbv zeta in Hstep.
    pose proof (ParseInt_index_bound index Hd) as Hb.
    destruct (_ && _); [|discriminate]. injection Hstep as <-.
    set (j := fst (ParseInt index 10 8)) in *.
    destruct (Nat.eq_dec (Z.to_nat j) i) as [<-|Hne].
    + rewrite list_lookup_alter_eq, Hx. simpl. eexists. split; [reflexivity|].
      rewrite fieldAssign_Id. simpl. lia.
    + rewrite list_lookup_alter_ne by exact Hne. eauto.
Qed.

Lemma GetSensors_item_sets_Id sensors item sensors' (i : Z) :
  GetSensors_item sensors item = Returned sensors' ->
  addressedIndex item = Some i ->
  exists x', sensors' !! Z.to_nat i = Some x' /\ Id x' = i.
Proof.
  intros Hstep (index & field & H & Hd & <-)%addressedIndex_Some.
  rewrite (GetSensors_item_matched _ _ _ _ H) in Hstep. cbv zeta in Hstep.
  destruct (_ && _) eqn:Hin; [|discriminate]. injection Hstep as <-.
  apply andb_true_iff in Hin as [H0 H1]. apply Z.leb_le in H0. apply Z.ltb_lt in H1.
  rewrite list_lookup_alter_eq.
  destruct (lookup_lt_is_Some_2 sensors (Z.to_nat (fst (ParseInt index 10 8)))
              ltac:(lia)) as [x ->].
  simpl. eexists. split; [reflexivity|]. rewrite fieldAssign_Id. reflexivity.
Qed.

Lemma GetSensors_decode_keeps_Id (items : response) : forall sensors sensors' (i : nat) x,
  GetSensors_decode sensors items = Returned sensors' ->
  sensors !! i = Some x -> Id x = Z.of_nat i ->
  exists x', sensors' !! i = Some x' /\ Id x' = Z.of_nat i.
Proof.
  induction items as [|item rest IH]; intros sensors sensors' i x; simpl.
  - intros [= <-]. eauto.
  - destruct (GetSensors_item sensors item) as [s1|p] eqn:E; [|intros [=]].
    rewrite bind_Returned. intros Hd Hx Hid.
    destruct (GetSensors_item_keeps_Id _ _ _ _ _ E Hx Hid) as (x1 & Hx1 & Hid1).
    eapply IH; eassumption.
Qed.

Lemma GetSensors_decode_sets_Id (items : response) : forall sensors sensors' item (i : Z),
  GetSensors_decode sensors items = Returned sensors' ->
  In item items -> addressedIndex item = Some i -> 0 <= i ->
  exists x', sensors' !! Z.to_nat i = Some x' /\ Id x' = i.
Proof.
  induction items as [|y rest IH]; intros sensors sensors' item i; simpl; [tauto|].
  destruct (GetSensors_item sensors y) as [s1|p] eqn:E; [|intros [=]].
  rewrite bind_Returned. intros Hd [-> | Hin] Ha Hi.
  - destruct (GetSensors_item_sets_Id _ _ _ _ E Ha) as (x1 & Hx1 & Hid1).
    destruct (GetSensors_decode_keeps_Id _ _ _ _ _ Hd Hx1) as (x' & Hx' & Hid');
      [lia|]. exists x'. split; [exact Hx' | lia].
  - eapply IH; eassumption.
Qed.

Lemma alter_setId_same (sensors : list Sensor) (i : nat) x :
  sensors !! i = Some x -> Id x = Z.of_nat i ->
  alter (setId (Z.of_nat i)) i sensors = sensors.
Proof.
  intros Hx Hid. apply list_eq. intros k.
  destruct (Nat.eq_dec i k) as [<-|Hne].
  - rewrite list_lookup_alter_eq, Hx. simpl. f_equal.
    destruct x; simpl in *. subst. reflexivity.
  - apply list_lookup_alter_ne. exact Hne.
Qed.

End Unknown.

(** ** Values that do not parse *)

Section Values.

Import strconv decimal regexp.

Lemma floatValueOf_error value v e :
  ParseInt value 10 16 = (v, Some e) -> floatValueOf value = f32.zero.
Proof. unfold floatValueOf. intros ->. reflexivity. Qed.

Lemma intValueOf_eq value v e :
  ParseInt value 10 16 = (v, e) -> intValueOf value = v.
Proof. unfold intValueOf. intros ->. reflexivity. Qed.

End Values.

(** The value 40000 overflows the 16-bit parse, and the item [G0.WeekProg]
    then sets the program to 32767, not to 0. *)
Example GetSensors_overflowing_program_not_zero :
  strconv.ParseInt "40000" 10 16 = (32767, Some strconv.ErrRange) /\
  GetSensors_decode [zeroSensor] [mkItem "G0.WeekProg" "40000"]
    = Returned [mkSensor 0 "" f32.zero f32.zero 32767 0] /\
  Program (mkSensor 0 "" f32.zero f32.zero 32767 0) <> 0.
Proof. repeat split; try (vm_compute; reflexivity). simpl. lia. Qed.

(** C10. An in-range item [G<i>.RaumTemp], [G<i>.SollTemp], [G<i>.WeekProg]
    or [G<i>.OPmode] whose value does not parse as a 16-bit integer is
    neither skipped nor fatal: the field is assigned all the same.  A
    temperature gets 0, its assignment being guarded by the error of the
    parse.  The program or mode is assigned without that guard and gets the
    integer that the failed parse returned: 0 after a syntax error, but the
    bound 32767 or -32768, not 0, after a range error. *)
Theorem GetSensors_unparsed_value_assigned
    (sensors : list Sensor) (item : responseItem) (index field : string)
    (i v : Z) (e : strconv.numError) :
  itemName item = "G" ++ index ++ "." ++ field ->
  decimal.isDigits index = true ->
  strconv.ParseInt index 10 8 = (i, None) ->
  i < Z.of_nat (length sensors) ->
  In field ["RaumTemp"; "SollTemp"; "WeekProg"; "OPmode"] ->
  strconv.ParseInt (itemValue item) 10 16 = (v, Some e) ->
  ((e = strconv.ErrSyntax /\ v = 0) \/
   (e = strconv.ErrRange /\ (v = 32767 \/ v = -32768))) /\
  GetSensors_item sensors item =
    Returned (alter (fun s =>
                (if String.eqb field "RaumTemp" then setRoomTemperature f32.zero
                 else if String.eqb field "SollTemp" then setTargetTemperature f32.zero
                 else if String.eqb field "WeekProg" then setProgram v
                 else setMode v) (setId i s))
              (Z.to_nat i) sensors).
Proof.
  intros Hn Hd Hp Hi Hfield Hv.
  split; [exact (ParseInt_error 16 ltac:(auto) _ _ _ Hv)|].
  assert (Hf : field <> "" /\ regexp.all regexp.isDot field = true).
  { simpl in Hfield.
    destruct Hfield as [<-|[<-|[<-|[<-|[]]]]]; split; (discriminate || reflexivity). }
  destruct Hf as [Hf Hdot].
  destruct (addressedIndex_name item index field Hn Hd Hf Hdot) as [Hm _].
  pose proof (ParseInt_index_bound index Hd) as Hb. rewrite Hp in Hb. simpl in Hb.
  rewrite (GetSensors_item_matched _ _ _ _ Hm). cbv zeta. rewrite Hp. simpl fst.
  repeat case_cmp; try lia. simpl andb. cbv iota. f_equal.
  apply list_alter_ext; [|reflexivity]. intros x _.
  unfold fieldAssign.
  rewrite (floatValueOf_error _ _ _ Hv), (intValueOf_eq _ _ _ Hv).
  simpl in Hfield.
  destruct Hfield as [<-|[<-|[<-|[<-|[]]]]]; reflexivity.
Qed.

Lemma GetSensors_unparsed_value_assigned_witness :
  GetSensors_item [mkSensor 0 "Kitchen" f32.zero f32.zero 2 1]
                  (mkItem "G0.WeekProg" "40000")
    = Returned [mkSensor 0 "Kitchen" f32.zero f32.zero 32767 1]
  /\
  GetSensors_item [mkSensor 0 "Kitchen" f32.zero f32.zero 2 1]
                  (mkItem "G0.OPmode" "night")
    = Returned [mkSensor 0 "Kitchen" f32.zero f32.zero 2 0].
Proof.
  split.
  - exact (proj2 (GetSensors_unparsed_value_assigned
             [mkSensor 0 "Kitchen" f32.zero f32.zero 2 1]
             (mkItem "G0.WeekProg" "40000") "0" "WeekProg" 0 32767 strconv.ErrRange
             eq_refl eq_refl eq_refl eq_refl
             (or_intror (or_intror (or_introl eq_refl))) eq_refl)).
  - exact (proj2 (GetSensors_unparsed_value_assigned
             [mkSensor 0 "Kitchen" f32.zero f32.zero 2 1]
             (mkItem "G0.OPmode" "night") "0" "OPmode" 0 0 strconv.ErrSyntax
             eq_refl eq_refl eq_refl eq_refl
             (or_intror (or_intror (or_intror (or_introl eq_refl)))) eq_refl)).
Defined.

(** ** Temperatures *)

Section Temperatures.

Lemma roundHalfEven_nearest (m : positive) (e : Z) :
  let n := f32.roundHalfEven m e in
  0 <= n /\
  if e <? 0 then
    2 * Z.abs (n * 2 ^ (- e) - Z.pos m) <= 2 ^ (- e) /\
    (2 * Z.abs (n * 2 ^ (- e) - Z.pos m) = 2 ^ (- e) -> Z.even n = true)
  else n = Z.pos m * 2 ^ e.
Proof.
  cbv zeta. unfold f32.roundHalfEven.
  destruct (Z.ltb_spec e 0) as [He|He].
  - destruct (Z.leb_spec 0 e); [lia|].
    assert (Hd : 0 < 2 ^ (- e)) by (apply Z.pow_pos_nonneg; lia).
    set (d := 2 ^ (- e)) in *.
    pose proof (Z.div_mod (Z.pos m) d ltac:(lia)) as Hdm.
    pose proof (Z.mod_pos_bound (Z.pos m) d Hd) as Hr.
    assert (Hq : 0 <= Z.pos m / d) by (apply Z.div_pos; lia).
    set (q := Z.pos m / d) in *. set (r := Z.pos m mod d) in *.
    destruct (Z.compare_spec (2 * r) d) as [Heq|Hlt|Hgt].
    + destruct (Z.even q) eqn:Hev.
      * split; [lia|]. split; [nia|]. intros _. exact Hev.
      * split; [lia|]. split; [nia|]. intros _.
        rewrite Z.even_add, Hev. reflexivity.
    + split; [lia|]. split; [nia|]. intros Habs. nia.
    + split; [lia|]. split; [nia|]. intros Habs. nia.
  - destruct (Z.leb_spec 0 e); [|lia]. split; [|reflexivity].
    apply Z.mul_nonneg_nonneg; [lia|]. apply Z.pow_nonneg. lia.
Qed.

(** That a printed temperature is a rounding, not a truncation, of the
    product: the product of the binary32 nearest to 21.456 with 100. *)
Lemma SetTargetTemperature_value_21_456 :
  f32.isNearest 21456 1000 (S754_finite false 11249123 (-19)) /\
  f32.mul (S754_finite false 11249123 (-19)) (f32.of_int 100)
    = S754_finite false 8788377 (-12) /\
  SetTargetTemperature_value (S754_finite false 11249123 (-19)) = "2146".
Proof.
  split; [|split]; try (vm_compute; reflexivity).
  split; [reflexivity|]. vm_compute. intros [=].
Qed.

End Temperatures.

(** C3 as stated fails: the temperature 21.456 is written as 2146, not as
    2145, the integer part of its product with 100. *)
Lemma SetTargetTemperature_value_not_truncated :
  f32.isNearest 21456 1000 (S754_finite false 11249123 (-19)) /\
  f32.mul (S754_finite false 11249123 (-19)) (f32.of_int 100)
    = S754_finite false 8788377 (-12) /\
  8788377 / 2 ^ 12 = 2145 /\
  SetTargetTemperature_value (S754_finite false 11249123 (-19)) <> "2145".
Proof.
  destruct SetTargetTemperature_value_21_456 as (Hn & Hm & Hv).
  split; [exact Hn|]. split; [exact Hm|]. split; [reflexivity|].
  rewrite Hv. discriminate.
Qed.

(** C3, amended. The value written by [SetTargetTemperature] is the
    [float32] product of the temperature with 100, printed as a decimal
    integer after rounding to the nearest integer, ties to the even one (not
    truncated): when the product is the finite number [(-1)^s * m * 2^e], the
    digits written are those of the integer [n] nearest to [m * 2^e]. *)
Theorem SetTargetTemperature_value_rounds_to_nearest
    (targetTemperature : float32) (s : bool) (m : positive) (e : Z) :
  f32.mul targetTemperature (f32.of_int 100) = S754_finite s m e ->
  exists n : Z,
    SetTargetTemperature_value targetTemperature
      = (if s then "-" else "") ++ strconv.Itoa n /\
    0 <= n /\
    if e <? 0 then
      2 * Z.abs (n * 2 ^ (- e) - Z.pos m) <= 2 ^ (- e) /\
      (2 * Z.abs (n * 2 ^ (- e) - Z.pos m) = 2 ^ (- e) -> Z.even n = true)
    else n = Z.pos m * 2 ^ e.
Proof.
  intros Hmul. exists (f32.roundHalfEven m e).
  split.
  - unfold SetTargetTemperature_value. rewrite Hmul. reflexivity.
  - apply roundHalfEven_nearest.
Qed.

Lemma SetTargetTemperature_value_rounds_to_nearest_witness :
  exists n : Z,
    SetTargetTemperature_value (S754_finite false 11249123 (-19))
      = "" ++ strconv.Itoa n /\
    0 <= n /\
    2 * Z.abs (n * 2 ^ 12 - 8788377) <= 2 ^ 12 /\
    (2 * Z.abs (n * 2 ^ 12 - 8788377) = 2 ^ 12 -> Z.even n = true).
Proof.
  exact (SetTargetTemperature_value_rounds_to_nearest
           (S754_finite false 11249123 (-19)) false 8788377 (-12) eq_refl).
Defined.

(** C4. The response [G0.RaumTemp = 2086], [G0.SollTemp = 2100],
    [G0.name = Kitchen] with one sensor decodes to the sensor with id 0, name
    Kitchen, room temperature 20.86 (the binary32 nearest to 2086/100) and
    target temperature 21 (2100/100 itself); its valve state is open; and
    the valve state of any sensor is open when its room temperature is less
    than its target temperature and closed otherwise. *)
Theorem GetSensors_kitchen_scenario
    (marshal : readRequest -> string * error)
    (post : string -> string -> string -> postResult)
    (unmarshal : string -> option response)
    (managementURL : string) :
  readValues marshal post unmarshal managementURL
      ["G0.RaumTemp"; "G0.SollTemp"; "G0.name"; "G0.WeekProg"; "G0.OPmode"]
    = ([mkItem "G0.RaumTemp" "2086"; mkItem "G0.SollTemp" "2100";
        mkItem "G0.name" "Kitchen"], None) ->
  (exists s : Sensor,
     GetSensors marshal post unmarshal managementURL 1 = Returned ([s], None) /\
     Id s = 0 /\ Name s = "Kitchen" /\
     RoomTemperature s = f32.div (f32.of_int 2086) (f32.of_int 100) /\
     f32.isNearest 2086 100 (RoomTemperature s) /\
     TargetTemperature s = f32.div (f32.of_int 2100) (f32.of_int 100) /\
     f32.isExactly 2100 100 (TargetTemperature s) /\
     Program s = 0 /\ Mode s = 0 /\
     GetValveState s = ValveOpen) /\
  (forall s : Sensor,
     (GetValveState s = ValveOpen <->
        f32.ltb (RoomTemperature s) (TargetTemperature s) = true) /\
     (GetValveState s = ValveClosed <->
        f32.ltb (RoomTemperature s) (TargetTemperature s) = false)).
Proof.
  intros Hr. split.
  - exists (mkSensor 0 "Kitchen" (S754_finite false 10936648 (-19))
                     (S754_finite false 11010048 (-19)) 0 0).
    split.
    { rewrite (GetSensors_of_response _ _ _ _ 1 _ _ eq_refl Hr).
      vm_compute. reflexivity. }
    repeat split; try (vm_compute; reflexivity).
    vm_compute. intros [=].
  - intros s. unfold GetValveState.
    destruct (f32.ltb (RoomTemperature s) (TargetTemperature s));
      split; split; (reflexivity || discriminate).
Qed.

Lemma GetSensors_kitchen_scenario_witness :
  exists s : Sensor,
    GetSensors (fun _ => ("", None)) (fun _ _ _ => Body "")
      (fun _ => Some [mkItem "G0.RaumTemp" "2086"; mkItem "G0.SollTemp" "2100";
                      mkItem "G0.name" "Kitchen"])
      "http://roth" 1 = Returned ([s], None) /\
    Id s = 0 /\ Name s = "Kitchen" /\
    RoomTemperature s = f32.div (f32.of_int 2086) (f32.of_int 100) /\
    f32.isNearest 2086 100 (RoomTemperature s) /\
    TargetTemperature s = f32.div (f32.of_int 2100) (f32.of_int 100) /\
    f32.isExactly 2100 100 (TargetTemperature s) /\
    Program s = 0 /\ Mode s = 0 /\
    GetValveState s = ValveOpen.
Proof.
  exact (proj1 (GetSensors_kitchen_scenario (fun _ => ("", None))
                  (fun _ _ _ => Body "")
                  (fun _ => Some [mkItem "G0.RaumTemp" "2086";
                                  mkItem "G0.SollTemp" "2100";
                                  mkItem "G0.name" "Kitchen"])
                  "http://roth" eq_refl)).
Defined.

(** C8. A write command asks for the address
    [<url>/cgi-bin/writeVal.cgi?G<sensorId>.<field>=<value>]:
    [SetTargetTemperature] with the field [SollTemp] and the temperature
    times 100, [SetProgram] with the field [WeekProg] and the program as a
    plain integer, [SetMode] with the field [OPMode] and the mode as a plain
    integer.  [OPMode] is not the [OPmode] that the decoder reads. *)
Theorem write_commands_wire_keys
    (get : string -> error) (managementURL : string) (sensorID : Z)
    (targetTemperature : float32) (program mode : Z) :
  let sent (e : error) : error :=
    match e with Some _ => Some "error sending data to server" | None => None end in
  SetTargetTemperature get managementURL sensorID targetTemperature
    = sent (get (managementURL ++ "/cgi-bin/writeVal.cgi?" ++ "G"
                   ++ strconv.Itoa sensorID ++ ".SollTemp=" ++
                   f32.FormatFloat_f_0
                     (f32.mul targetTemperature (f32.of_int 100)))) /\
  SetProgram get managementURL sensorID program
    = sent (get (managementURL ++ "/cgi-bin/writeVal.cgi?" ++ "G"
                   ++ strconv.Itoa sensorID ++ ".WeekProg="
                   ++ strconv.Itoa program)) /\
  SetMode get managementURL sensorID mode
    = sent (get (managementURL ++ "/cgi-bin/writeVal.cgi?" ++ "G"
                   ++ strconv.Itoa sensorID ++ ".OPMode="
                   ++ strconv.Itoa mode)) /\
  SetTargetTemperature_value (f32.of_int 21) = "2100" /\
  strconv.Itoa Program2 = "2" /\ strconv.Itoa ModeHoliday = "2" /\
  In "OPmode" knownFields /\ ~ In "OPMode" knownFields /\
  (forall value s, fieldAssign "OPMode" value s = s).
Proof.
  cbv zeta. repeat split; try reflexivity.
  - simpl. tauto.
  - simpl. intros [H|[H|[H|[H|[H|[]]]]]]; discriminate.
Qed.

(** ** The names asked for are names the decoder places *)

Section AskedNames.

Import strconv decimal regexp.

(** Every name of the request matches the pattern, with the printed index
    and the field as its groups. *)
Lemma requestName_matches (i : Z) (field : string) :
  0 <= i -> In field knownFields ->
  sensorInfoParser_FindStringSubmatch (requestName i field)
    = [requestName i field; Itoa i; field].
Proof.
  intros Hi Hfield. unfold requestName.
  destruct (Itoa_nonneg i Hi) as [Hd _].
  apply FindStringSubmatch_match; [exact Hd| |];
    simpl in Hfield;
    destruct Hfield as [<-|[<-|[<-|[<-|[<-|[]]]]]]; (discriminate || reflexivity).
Qed.

(** Up to index 127 the decoder reads back the index that was printed. *)
Lemma requestName_addressedIndex (i : Z) (field value : string) :
  0 <= i <= 127 -> In field knownFields ->
  addressedIndex (mkItem (requestName i field) value) = Some i.
Proof.
  intros Hi Hfield. unfold addressedIndex. simpl itemName.
  rewrite requestName_matches by (assumption || lia).
  rewrite ParseInt_Itoa by exact Hi. reflexivity.
Qed.


End AskedNames.

(** * Further properties of the package *)

(** ** The valve accessors *)

Lemma ltb_irrefl (x : float32) : f32.ltb x x = false.
Proof.
  unfold f32.ltb, SFltb. destruct x as [s|s| |s m e]; simpl.
  - reflexivity.
  - destruct s; reflexivity.
  - reflexivity.
  - rewrite Z.compare_refl, Pos.compare_cont_refl. destruct s; reflexivity.
Qed.

(** X1. [GetValveValue] and [GetValveState] never disagree: the value is 1
    exactly when the state is open and 0 exactly when it is closed; and a
    sensor whose room and target temperatures are the same value (as for a
    record no item has filled) has its valve closed. *)
Theorem GetValveValue_agrees_with_GetValveState (s : Sensor) :
  (GetValveValue s = 1 <-> GetValveState s = ValveOpen) /\
  (GetValveValue s = 0 <-> GetValveState s = ValveClosed) /\
  (RoomTemperature s = TargetTemperature s ->
     GetValveValue s = 0 /\ GetValveState s = ValveClosed).
Proof.
  unfold GetValveValue, GetValveState. repeat split.
  - destruct (f32.ltb _ _); [reflexivity | intros [=]].
  - destruct (f32.ltb _ _); [reflexivity | intros [=]].
  - destruct (f32.ltb _ _); [intros [=] | reflexivity].
  - destruct (f32.ltb _ _); [intros [=] | reflexivity].
  - rewrite H, ltb_irrefl. reflexivity.
  - rewrite H, ltb_irrefl. reflexivity.
Qed.

Lemma GetValveValue_agrees_with_GetValveState_witness :
  GetValveValue zeroSensor = 0 /\ GetValveState zeroSensor = ValveClosed.
Proof.
  exact (proj2 (proj2 (GetValveValue_agrees_with_GetValveState zeroSensor)) eq_refl).
Defined.

(** ** What the two readers return *)

Lemma GetSensorCount_range
    (marshal : readRequest -> string * error)
    (post : string -> string -> string -> postResult)
    (unmarshal : string -> option response)
    (managementURL : string) :
  -128 <= fst (GetSensorCount marshal post unmarshal managementURL) <= 127 /\
  (snd (GetSensorCount marshal post unmarshal managementURL) <> None ->
   fst (GetSensorCount marshal post unmarshal managementURL) = 0).
Proof.
  unfold GetSensorCount.
  destruct (readValues marshal post unmarshal managementURL _) as [resp [err|]];
    [simpl; split; [lia | reflexivity]|].
  destruct resp as [|item0 rest]; [simpl; split; [lia | reflexivity]|].
  destruct (strconv.ParseInt (itemValue item0) 10 8) as [v [e|]] eqn:E;
    [simpl; split; [lia | reflexivity]|].
  apply (ParseInt_ok_iff 8 ltac:(auto)) in E as (_ & _ & Hr).
  change (2 ^ (8 - 1)) with 128 in Hr. simpl. split; [lia | congruence].
Qed.

(** X2. Whatever the transport answers, the count that [GetSensorCount]
    returns lies between -128 and 127, and it is 0 whenever an error is
    returned with it. *)
Theorem GetSensorCount_result_bounds
    (marshal : readRequest -> string * error)
    (post : string -> string -> string -> postResult)
    (unmarshal : string -> option response)
    (managementURL : string) (count : Z) (err : error) :
  GetSensorCount marshal post unmarshal managementURL = (count, err) ->
  -128 <= count <= 127 /\ (err <> None -> count = 0).
Proof.
  intros H.
  pose proof (GetSensorCount_range marshal post unmarshal managementURL) as Hr.
  rewrite H in Hr. exact Hr.
Qed.

Lemma GetSensorCount_result_bounds_witness :
  -128 <= 0 <= 127 /\ (Some "Unexpected value 300" <> None -> 0 = 0).
Proof.
  exact (GetSensorCount_result_bounds (fun _ => ("", None)) (fun _ _ _ => Body "")
           (fun _ => Some [mkItem "totalNumberOfDevices" "300"]) "http://roth"
           0 (Some "Unexpected value 300") eq_refl).
Defined.

(** X3. When [GetSensors] returns, it returns either an error with an empty
    slice, or no error with exactly [sensorCount] records, whatever the
    response held. *)
Theorem GetSensors_result_shape
    (marshal : readRequest -> string * error)
    (post : string -> string -> string -> postResult)
    (unmarshal : string -> option response)
    (managementURL : string) (sensorCount : Z)
    (sensors : list Sensor) (err : error) :
  GetSensors marshal post unmarshal managementURL sensorCount
    = Returned (sensors, err) ->
  (err <> None /\ sensors = []) \/
  (err = None /\ Z.of_nat (length sensors) = sensorCount).
Proof.
  destruct err as [e|].
  - intros H. left. split; [discriminate|]. revert H. unfold GetSensors.
    destruct (GetSensors_request sensorCount) as [req|p]; [|intros [=]].
    rewrite bind_Returned.
    destruct (readValues marshal post unmarshal managementURL req) as [resp [e'|]].
    + intros [= <- _]. reflexivity.
    + destruct (make sizeof_Sensor zeroSensor sensorCount) as [s0|p]; [|intros [=]].
      rewrite bind_Returned.
      destruct (GetSensors_decode s0 resp); intros [=].
  - intros H. right. split; [reflexivity|].
    apply GetSensors_Returned_inv in H as (req & resp & _ & _ & H0 & Hd).
    rewrite (GetSensors_decode_length _ _ _ Hd), length_replicate. lia.
Qed.

Lemma GetSensors_result_shape_witness :
  GetSensors (fun _ => ("", None)) (fun _ _ _ => Body "")
    (fun _ => Some [mkItem "G1.name" "Bath"]) "http://roth" 2
    = Returned ([zeroSensor; mkSensor 1 "Bath" f32.zero f32.zero 0 0], None) /\
  Z.of_nat (length [zeroSensor; mkSensor 1 "Bath" f32.zero f32.zero 0 0]) = 2.
Proof.
  split; [reflexivity|].
  destruct (GetSensors_result_shape (fun _ => ("", None)) (fun _ _ _ => Body "")
              (fun _ => Some [mkItem "G1.name" "Bath"]) "http://roth" 2
              [zeroSensor; mkSensor 1 "Bath" f32.zero f32.zero 0 0] None eq_refl)
    as [[H _] | [_ H]]; [contradiction H; reflexivity | exact H].
Defined.

(** X4. [GetSensorCount] takes a negative count from the controller without
    an error, and [GetSensors] called with a negative count panics on the
    allocation of its request, before anything is read. *)
Theorem negative_count_accepted_then_panics
    (marshal : readRequest -> string * error)
    (post : string -> string -> string -> postResult)
    (unmarshal : string -> option response)
    (managementURL : string) (item0 : responseItem) (rest : response) :
  readValues marshal post unmarshal managementURL ["totalNumberOfDevices"]
    = (item0 :: rest, None) ->
  decimal.fits 8 (itemValue item0) = true ->
  decimal.decimalValue (itemValue item0) < 0 ->
  exists count,
    GetSensorCount marshal post unmarshal managementURL = (count, None) /\
    count = decimal.decimalValue (itemValue item0) /\
    GetSensors marshal post unmarshal managementURL count
      = Panicked MakeSliceLenOutOfRange.
Proof.
  intros Hr Hfits Hneg. exists (decimal.decimalValue (itemValue item0)).
  split; [|split; [reflexivity|]].
  - rewrite (GetSensorCount_of_response _ _ _ _ _ Hr), Hfits. reflexivity.
  - unfold decimal.fits in Hfits.
    apply andb_true_iff in Hfits as [[_ Hlo]%andb_true_iff _].
    apply Z.leb_le in Hlo. change (2 ^ (8 - 1)) with 128 in Hlo.
    unfold GetSensors, GetSensors_request, make.
    rewrite toInt64_small by lia.
    destruct (Z.ltb_spec (decimal.decimalValue (itemValue item0) * 5) 0); [|lia].
    reflexivity.
Qed.

Lemma negative_count_accepted_then_panics_witness :
  exists count,
    GetSensorCount (fun _ => ("", None)) (fun _ _ _ => Body "")
      (fun _ => Some [mkItem "totalNumberOfDevices" "-3"]) "http://roth"
      = (count, None) /\
    count = -3 /\
    GetSensors (fun _ => ("", None)) (fun _ _ _ => Body "")
      (fun _ => Some [mkItem "totalNumberOfDevices" "-3"]) "http://roth" count
      = Panicked MakeSliceLenOutOfRange.
Proof.
  exact (negative_count_accepted_then_panics (fun _ => ("", None))
           (fun _ _ _ => Body "")
           (fun _ => Some [mkItem "totalNumberOfDevices" "-3"]) "http://roth"
           (mkItem "totalNumberOfDevices" "-3") [] eq_refl eq_refl eq_refl).
Defined.

(** X5. Every count that [GetSensorCount] returns without an error and that
    is not negative is one for which [GetSensors] builds its request: the
    8-bit bound of the count keeps the length [5 * count] far from the range
    of [int], and the request has [5 * count] names. *)
Theorem returned_count_builds_request
    (marshal : readRequest -> string * error)
    (post : string -> string -> string -> postResult)
    (unmarshal : string -> option response)
    (managementURL : string) (count : Z) :
  GetSensorCount marshal post unmarshal managementURL = (count, None) ->
  0 <= count ->
  exists req,
    GetSensors_request count = Returned req /\
    Z.of_nat (length req) = 5 * count /\ Z.of_nat (length req) <= 635.
Proof.
  intros Hc H0.
  pose proof (GetSensorCount_range marshal post unmarshal managementURL)
    as [Hb _]. rewrite Hc in Hb. simpl in Hb.
  eexists.
  split; [apply GetSensors_request_eq; unfold sizeof_readRequestItem, maxAlloc; lia|].
  rewrite flat_map_requestNames_length, length_seq. lia.
Qed.

Lemma returned_count_builds_request_witness :
  exists req,
    GetSensors_request 4 = Returned req /\
    Z.of_nat (length req) = 5 * 4 /\ Z.of_nat (length req) <= 635.
Proof.
  exact (returned_count_builds_request (fun _ => ("", None)) (fun _ _ _ => Body "")
           (fun _ => Some [mkItem "totalNumberOfDevices" "4"]) "http://roth" 4
           eq_refl ltac:(lia)).
Defined.

(** ** What a response leaves in the slice *)

Section Response.

Import strconv decimal regexp.

Lemma addressed_both item :
  (addressedIndex item = None /\ addressedField item = None /\
   sensorInfoParser_FindStringSubmatch (itemName item) = []) \/
  (exists index field,
     sensorInfoParser_FindStringSubmatch (itemName item)
       = [itemName item; index; field] /\
     isDigits index = true /\
     addressedIndex item = Some (fst (ParseInt index 10 8)) /\
     addressedField item = Some field).
Proof.
  unfold addressedIndex, addressedField.
  destruct (FindStringSubmatch_inv (itemName item))
    as [H | (index & field & H & _ & Hd & _)]; rewrite H.
  - left. auto.
  - right. exists index, field. auto.
Qed.

(** One step of the decoder, by what the item is addressed to. *)
Lemma GetSensors_item_cases sensors item :
  (addressedIndex item = None /\ addressedField item = None /\
   GetSensors_item sensors item = Returned sensors) \/
  (exists i field,
     addressedIndex item = Some i /\ addressedField item = Some field /\
     0 <= i <= 127 /\
     GetSensors_item sensors item =
       if i <? Z.of_nat (length sensors) then
         Returned (alter (fun x => fieldAssign field (itemValue item) (setId i x))
                         (Z.to_nat i) sensors)
       else Panicked (IndexOutOfRange i (Z.of_nat (length sensors)))).
Proof.
  destruct (addressed_both item) as [(Hi & Hf & Hm) | (index & field & Hm & Hd & Hi & Hf)].
  - left. rewrite (GetSensors_item_unmatched _ _ Hm). auto.
  - right. exists (fst (ParseInt index 10 8)), field.
    pose proof (ParseInt_index_bound index Hd) as Hb.
    repeat split; try assumption; try lia.
    rewrite (GetSensors_item_matched _ _ _ _ Hm). cbv zeta.
    repeat case_cmp; try lia; reflexivity.
Qed.

(** The decoder stops with a panic exactly when some item is addressed at or
    beyond the length of the slice. *)
Lemma GetSensors_decode_panics_iff (items : response) : forall sensors,
  panics (GetSensors_decode sensors items) <->
  exists item i, In item items /\ addressedIndex item = Some i /\
                 Z.of_nat (length sensors) <= i.
Proof.
  intros sensors. split.
  - revert sensors. induction items as [|item rest IH]; intros sensors [p Hp].
    + discriminate.
    + simpl in Hp.
      destruct (GetSensors_item_cases sensors item)
        as [(Hi & _ & Hs) | (i & field & Hi & _ & Hb & Hs)]; rewrite Hs in Hp.
      * rewrite bind_Returned in Hp.
        destruct (IH sensors (ex_intro _ p Hp)) as (it & k & Hin & Ha & Hk).
        exists it, k. simpl. auto.
      * destruct (Z.ltb_spec i (Z.of_nat (length sensors))).
        -- rewrite bind_Returned in Hp.
           destruct (IH _ (ex_intro _ p Hp)) as (it & k & Hin & Ha & Hk).
           rewrite length_alter in Hk. exists it, k. simpl. auto.
        -- exists item, i. simpl. auto.
  - intros (item & i & Hin & Ha & Hi).
    eapply GetSensors_decode_beyond; eassumption.
Qed.

Lemma fieldAssign_Name f v x :
  Name (fieldAssign f v x) = if String.eqb f "name" then v else Name x.
Proof.
  unfold fieldAssign.
  repeat match goal with
         | |- context [String.eqb f ?c] => destruct (String.eqb_spec f c) as [->|?]
         end; reflexivity.
Qed.

Lemma fieldAssign_RoomTemperature f v x :
  RoomTemperature (fieldAssign f v x)
    = if String.eqb f "RaumTemp" then floatValueOf v else RoomTemperature x.
Proof.
  unfold fieldAssign.
  repeat match goal with
         | |- context [String.eqb f ?c] => destruct (String.eqb_spec f c) as [->|?]
         end; reflexivity.
Qed.

Lemma fieldAssign_TargetTemperature f v x :
  TargetTemperature (fieldAssign f v x)
    = if String.eqb f "SollTemp" then floatValueOf v else TargetTemperature x.
Proof.
  unfold fieldAssign.
  repeat match goal with
         | |- context [String.eqb f ?c] => destruct (String.eqb_spec f c) as [->|?]
         end; reflexivity.
Qed.

Lemma fieldAssign_Program f v x :
  Program (fieldAssign f v x)
    = if String.eqb f "WeekProg" then intValueOf v else Program x.
Proof.
  unfold fieldAssign.
  repeat match goal with
         | |- context [String.eqb f ?c] => destruct (String.eqb_spec f c) as [->|?]
         end; reflexivity.
Qed.

Lemma fieldAssign_Mode f v x :
  Mode (fieldAssign f v x)
    = if String.eqb f "OPmode" then intValueOf v else Mode x.
Proof.
  unfold fieldAssign.
  repeat match goal with
         | |- context [String.eqb f ?c] => destruct (String.eqb_spec f c) as [->|?]
         end; reflexivity.
Qed.

Lemma Sensor_eq (x y : Sensor) :
  Id x = Id y -> Name x = Name y ->
  RoomTemperature x = RoomTemperature y ->
  TargetTemperature x = TargetTemperature y ->
  Program x = Program y -> Mode x = Mode y -> x = y.
Proof. destruct x, y; simpl; intros; subst; reflexivity. Qed.

Lemma leftInRecord_nil j x : leftInRecord j [] x = x.
Proof. destruct x; reflexivity. Qed.

(** An item addressed elsewhere, or not at all, leaves nothing at [j]. *)
Lemma leftInRecord_cons_other j item rest x :
  addressedIndex item <> Some j ->
  leftInRecord j (item :: rest) x = leftInRecord j rest x.
Proof.
  intros Hne.
  assert (Hw : forall f, writesTo j f item = false).
  { intros f. unfold writesTo.
    destruct (addressedIndex item) as [i|]; [|reflexivity].
    destruct (addressedField item); [|reflexivity].
    destruct (Z.eqb_spec i j); [congruence | reflexivity]. }
  assert (Ha : addresses j (item :: rest) = addresses j rest).
  { unfold addresses. simpl.
    destruct (addressedIndex item) as [i|]; [|reflexivity].
    destruct (Z.eqb_spec i j); [congruence | reflexivity]. }
  unfold leftInRecord. rewrite Ha. simpl lastValue. rewrite !Hw.
  apply Sensor_eq; simpl; try reflexivity;
    match goal with
    | |- context [lastValue j ?f rest] => destruct (lastValue j f rest); reflexivity
    end.
Qed.

(** An item addressed to [j] acts first, and the rest of the response acts
    on what it left. *)
Lemma leftInRecord_cons_same j field item rest x :
  addressedIndex item = Some j -> addressedField item = Some field ->
  leftInRecord j (item :: rest) x
    = leftInRecord j rest (fieldAssign field (itemValue item) (setId j x)).
Proof.
  intros Hi Hf.
  assert (Hw : forall f, writesTo j f item = String.eqb field f).
  { intros f. unfold writesTo. rewrite Hi, Hf, Z.eqb_refl. reflexivity. }
  assert (Ha : addresses j (item :: rest) = true).
  { unfold addresses. simpl. rewrite Hi, Z.eqb_refl. reflexivity. }
  unfold leftInRecord. rewrite Ha. simpl lastValue. rewrite !Hw.
  rewrite fieldAssign_Id, fieldAssign_Name, fieldAssign_RoomTemperature,
    fieldAssign_TargetTemperature, fieldAssign_Program, fieldAssign_Mode.
  apply Sensor_eq; simpl.
  - destruct (addresses j rest); reflexivity.
  - destruct (lastValue j "name" rest); [reflexivity|].
    destruct (String.eqb field "name"); reflexivity.
  - destruct (lastValue j "RaumTemp" rest); [reflexivity|].
    destruct (String.eqb field "RaumTemp"); reflexivity.
  - destruct (lastValue j "SollTemp" rest); [reflexivity|].
    destruct (String.eqb field "SollTemp"); reflexivity.
  - destruct (lastValue j "WeekProg" rest); [reflexivity|].
    destruct (String.eqb field "WeekProg"); reflexivity.
  - destruct (lastValue j "OPmode" rest); [reflexivity|].
    destruct (String.eqb field "OPmode"); reflexivity.
Qed.

(** Each record of the result is what the response leaves in the record
    that was there. *)
Lemma GetSensors_decode_lookup (items : response) :
  forall sensors sensors' (j : nat) x,
  GetSensors_decode sensors items = Returned sensors' ->
  sensors !! j = Some x ->
  sensors' !! j = Some (leftInRecord (Z.of_nat j) items x).
Proof.
  induction items as [|item rest IH]; intros sensors sensors' j x; simpl.
  - intros [= <-] Hx. rewrite leftInRecord_nil. exact Hx.
  - destruct (GetSensors_item_cases sensors item)
      as [(Hi & _ & Hs) | (i & field & Hi & Hf & Hb & Hs)]; rewrite Hs.
    + rewrite bind_Returned. intros Hd Hx.
      rewrite leftInRecord_cons_other by congruence. eapply IH; eassumption.
    + destruct (Z.ltb_spec i (Z.of_nat (length sensors))); [|intros [=]].
      rewrite bind_Returned. intros Hd Hx.
      destruct (Nat.eq_dec (Z.to_nat i) j) as [Heq|Hne].
      * assert (Hij : i = Z.of_nat j) by lia. subst i.
        rewrite (leftInRecord_cons_same _ field) by assumption.
        apply (IH _ _ _ _ Hd).
        rewrite Heq, list_lookup_alter_eq, Hx. reflexivity.
      * rewrite leftInRecord_cons_other by (rewrite Hi; intros [= ->]; lia).
        apply (IH _ _ _ _ Hd).
        rewrite list_lookup_alter_ne by exact Hne. exact Hx.
Qed.

Lemma lastValue_app j f (l1 l2 : response) :
  lastValue j f (l1 ++ l2)%list =
    match lastValue j f l2 with
    | Some v => Some v
    | None => lastValue j f l1
    end.
Proof.
  induction l1 as [|a l1 IH]; simpl.
  - destruct (lastValue j f l2); reflexivity.
  - rewrite IH. destruct (lastValue j f l2); reflexivity.
Qed.

Lemma lastValue_Some_In j f (l : response) v :
  lastValue j f l = Some v ->
  exists a, In a l /\ writesTo j f a = true /\ itemValue a = v.
Proof.
  induction l as [|a l IH]; simpl; [intros [=]|].
  destruct (lastValue j f l) as [w|].
  - intros [= <-]. destruct (IH eq_refl) as (b & Hin & Hw & Hv). eauto.
  - destruct (writesTo j f a) eqn:Hw; [|intros [=]].
    intros [= <-]. exists a. auto.
Qed.

Lemma lastValue_None_In j f (l : response) a :
  lastValue j f l = None -> In a l -> writesTo j f a = false.
Proof.
  induction l as [|b l IH]; simpl; [tauto|].
  destruct (lastValue j f l) as [w|]; [intros [=]|].
  destruct (writesTo j f b) eqn:Hw; [intros [=]|].
  intros _ [<- | Hin]; [exact Hw | apply IH; [reflexivity | exact Hin]].
Qed.

End Response.

Section ResponseOrder.

Import strconv decimal regexp.

Lemma addresses_In j (l : response) :
  addresses j l = true <-> exists a, In a l /\ addressedIndex a = Some j.
Proof.
  unfold addresses. rewrite existsb_exists. split.
  - intros (a & Hin & Ha). exists a. split; [exact Hin|].
    destruct (addressedIndex a) as [i|]; [|discriminate].
    apply Z.eqb_eq in Ha. congruence.
  - intros (a & Hin & Ha). exists a. split; [exact Hin|].
    rewrite Ha. apply Z.eqb_refl.
Qed.

Lemma addresses_same_items j (l l' : response) :
  (forall a, In a l <-> In a l') -> addresses j l = addresses j l'.
Proof.
  intros Hsame.
  destruct (addresses j l) eqn:E; destruct (addresses j l') eqn:E'; try reflexivity.
  - apply addresses_In in E as (a & Hin & Ha).
    assert (addresses j l' = true)
      by (apply addresses_In; exists a; split; [apply Hsame; exact Hin | exact Ha]).
    congruence.
  - apply addresses_In in E' as (a & Hin & Ha).
    assert (addresses j l = true)
      by (apply addresses_In; exists a; split; [apply Hsame; exact Hin | exact Ha]).
    congruence.
Qed.

(** When the items that write one field of one record agree on the value,
    the value left there depends on which items the response holds, not on
    their order. *)
Lemma lastValue_same_items j f (l l' : response) :
  (forall a, In a l <-> In a l') ->
  (forall a b, In a l -> In b l ->
     writesTo j f a = true -> writesTo j f b = true -> itemValue a = itemValue b) ->
  lastValue j f l = lastValue j f l'.
Proof.
  intros Hsame Hagree.
  destruct (lastValue j f l) as [v|] eqn:E; destruct (lastValue j f l') as [v'|] eqn:E'.
  - apply lastValue_Some_In in E as (a & Hin & Hw & <-).
    apply lastValue_Some_In in E' as (b & Hin' & Hw' & <-).
    f_equal. apply Hagree; try assumption. apply Hsame. exact Hin'.
  - apply lastValue_Some_In in E as (a & Hin & Hw & _).
    rewrite (lastValue_None_In _ _ _ a E') in Hw; [discriminate|].
    apply Hsame. exact Hin.
  - apply lastValue_Some_In in E' as (b & Hin' & Hw' & _).
    rewrite (lastValue_None_In _ _ _ b E) in Hw'; [discriminate|].
    apply Hsame. exact Hin'.
  - reflexivity.
Qed.

(** Only the five fields of the [switch] count: what items with another
    field carry is never looked at. *)
Lemma leftInRecord_same_items j (l l' : response) x :
  (forall a, In a l <-> In a l') ->
  (forall a b k f, In a l -> In b l -> In f knownFields ->
     writesTo k f a = true -> writesTo k f b = true -> itemValue a = itemValue b) ->
  leftInRecord j l x = leftInRecord j l' x.
Proof.
  intros Hsame Hagree. unfold leftInRecord.
  rewrite (addresses_same_items j l l' Hsame).
  rewrite !(lastValue_same_items j _ l l' Hsame)
    by (intros a b Ha Hb; apply (Hagree a b j _ Ha Hb); simpl; auto 10).
  reflexivity.
Qed.

Lemma writesTo_true j f (a : responseItem) :
  writesTo j f a = true -> addressedIndex a = Some j /\ addressedField a = Some f.
Proof.
  unfold writesTo.
  destruct (addressedIndex a) as [i|]; [|intros [=]].
  destruct (addressedField a) as [g|]; [|intros [=]].
  intros [Hi Hg]%andb_true_iff.
  apply Z.eqb_eq in Hi. apply String.eqb_eq in Hg. subst. auto.
Qed.

Lemma leftInRecord_twice j (l : response) x :
  leftInRecord j l (leftInRecord j l x) = leftInRecord j l x.
Proof.
  unfold leftInRecord. apply Sensor_eq; simpl.
  - destruct (addresses j l); reflexivity.
  - destruct (lastValue j "name" l); reflexivity.
  - destruct (lastValue j "RaumTemp" l); reflexivity.
  - destruct (lastValue j "SollTemp" l); reflexivity.
  - destruct (lastValue j "WeekProg" l); reflexivity.
  - destruct (lastValue j "OPmode" l); reflexivity.
Qed.

(** Two runs of the decoder that both return agree as soon as they leave
    the same thing in every record. *)
Lemma GetSensors_decode_ext (l l' : response) sensors s1 s2 :
  GetSensors_decode sensors l = Returned s1 ->
  GetSensors_decode sensors l' = Returned s2 ->
  (forall (j : nat) x, sensors !! j = Some x ->
     leftInRecord (Z.of_nat j) l x = leftInRecord (Z.of_nat j) l' x) ->
  s1 = s2.
Proof.
  intros H1 H2 Heq. apply list_eq. intros j.
  destruct (sensors !! j) as [x|] eqn:Hx.
  - rewrite (GetSensors_decode_lookup _ _ _ _ _ H1 Hx),
      (GetSensors_decode_lookup _ _ _ _ _ H2 Hx), (Heq _ _ Hx). reflexivity.
  - apply lookup_ge_None in Hx.
    rewrite (proj2 (lookup_ge_None s1 j)), (proj2 (lookup_ge_None s2 j)); try reflexivity.
    + rewrite (GetSensors_decode_length _ _ _ H2). exact Hx.
    + rewrite (GetSensors_decode_length _ _ _ H1). exact Hx.
Qed.

Lemma not_panics_Returned {A : Type} (o : outcome A) :
  ~ panics o -> exists a, o = Returned a.
Proof.
  destruct o as [a|p]; [eauto|]. intros H. exfalso. apply H. exists p. reflexivity.
Qed.

Lemma Returned_not_panics {A : Type} (o : outcome A) a :
  o = Returned a -> ~ panics o.
Proof. intros -> [p Hp]. discriminate. Qed.

End ResponseOrder.

(** ** Items with a field that the decoder does not know *)

(** Such an item is not ignored altogether.  Alone in the response,
    [G1.Foo] makes [GetSensors] return record 1 with [Id = 1], where the
    response without it leaves the zero record there. *)
Lemma GetSensors_unknown_field_not_ignored :
  GetSensors (fun _ => ("", None)) (fun _ _ _ => Body "")
    (fun _ => Some [mkItem "G1.Foo" "1"]) "http://roth" 2
    = Returned ([zeroSensor; mkSensor 1 "" f32.zero f32.zero 0 0], None) /\
  GetSensors (fun _ => ("", None)) (fun _ _ _ => Body "")
    (fun _ => Some []) "http://roth" 2
    = Returned ([zeroSensor; zeroSensor], None) /\
  mkSensor 1 "" f32.zero f32.zero 0 0 <> zeroSensor.
Proof.
  split; [vm_compute; reflexivity|]. split; [vm_compute; reflexivity|].
  unfold zeroSensor. intros [=].
Qed.

(** C7, as the code has it.  An item [G<i>.<field>] with an index in range
    and a field outside [RaumTemp], [SollTemp], [name], [WeekProg],
    [OPmode] does not fail and assigns none of the five data fields; what
    it does is [Id := i] on record [i], the assignment that every item of
    index [i] makes before the [switch].  In a response that holds it the
    other items are applied as they are without it: every data field of
    every record ends with the converted value of the last other item that
    wrote it (or with what it held before, if there is none), whether that
    item stands before or after the unknown one.  The decoding is that of
    the response without the item followed by [Id := i], and the very same
    as soon as another item of index [i] is present. *)
Theorem GetSensors_unknown_field_sets_only_Id
    (l1 l2 : response) (sensors : list Sensor) (item : responseItem)
    (index field : string) (i : Z) :
  itemName item = "G" ++ index ++ "." ++ field ->
  decimal.isDigits index = true -> field <> "" ->
  regexp.all regexp.isDot field = true ->
  strconv.ParseInt index 10 8 = (i, None) ->
  i < Z.of_nat (length sensors) ->
  ~ In field knownFields ->
  GetSensors_item sensors item = Returned (alter (setId i) (Z.to_nat i) sensors) /\
  GetSensors_decode sensors (l1 ++ item :: l2)%list =
    (s ← GetSensors_decode sensors (l1 ++ l2)%list;
     Returned (alter (setId i) (Z.to_nat i) s)) /\
  (forall s : list Sensor,
     GetSensors_decode sensors (l1 ++ item :: l2)%list = Returned s ->
     forall (j : nat) (x : Sensor), sensors !! j = Some x ->
     exists x' : Sensor,
       s !! j = Some x' /\
       Id x' = (if (Z.of_nat j =? i) || addresses (Z.of_nat j) (l1 ++ l2)%list
                then Z.of_nat j else Id x) /\
       Name x' = default (Name x) (lastValue (Z.of_nat j) "name" (l1 ++ l2)%list) /\
       RoomTemperature x' =
         default (RoomTemperature x)
           (floatValueOf <$> lastValue (Z.of_nat j) "RaumTemp" (l1 ++ l2)%list) /\
       TargetTemperature x' =
         default (TargetTemperature x)
           (floatValueOf <$> lastValue (Z.of_nat j) "SollTemp" (l1 ++ l2)%list) /\
       Program x' =
         default (Program x)
           (intValueOf <$> lastValue (Z.of_nat j) "WeekProg" (l1 ++ l2)%list) /\
       Mode x' =
         default (Mode x)
           (intValueOf <$> lastValue (Z.of_nat j) "OPmode" (l1 ++ l2)%list)) /\
  (forall sibling, In sibling (l1 ++ l2)%list -> addressedIndex sibling = Some i ->
     GetSensors_decode sensors (l1 ++ item :: l2)%list
       = GetSensors_decode sensors (l1 ++ l2)%list).
Proof.
  intros Hn Hd Hf Hdot Hp Hi Hunk.
  destruct (addressedIndex_name item index field Hn Hd Hf Hdot) as [Hm _].
  pose proof (ParseInt_index_bound index Hd) as Hb. rewrite Hp in Hb. simpl in Hb.
  assert (Hitem : forall s, length s = length sensors ->
            GetSensors_item s item = Returned (alter (setId i) (Z.to_nat i) s)).
  { intros s Hlen. rewrite (GetSensors_item_matched _ _ _ _ Hm). cbv zeta.
    rewrite Hp, Hlen. simpl fst.
    repeat case_cmp; try lia. simpl. f_equal.
    apply list_alter_ext; [|reflexivity].
    intros x _. apply fieldAssign_unknown, Hunk. }
  assert (Hdec : GetSensors_decode sensors (l1 ++ item :: l2)%list =
            (s ← GetSensors_decode sensors (l1 ++ l2)%list;
             Returned (alter (setId i) (Z.to_nat i) s))).
  { rewrite !GetSensors_decode_app.
    destruct (GetSensors_decode sensors l1) as [s1|p] eqn:E1; [|reflexivity].
    rewrite !bind_Returned. simpl.
    rewrite Hitem by (eapply GetSensors_decode_length, E1).
    rewrite bind_Returned.
    rewrite <- (Z2Nat.id i) at 1 by lia. rewrite GetSensors_decode_touch.
    rewrite Z2Nat.id by lia. reflexivity. }
  split; [apply Hitem; reflexivity|]. split; [exact Hdec|]. split.
  - intros s Hs j x Hx. rewrite Hdec in Hs.
    destruct (GetSensors_decode sensors (l1 ++ l2)%list) as [s0|p] eqn:E;
      [|discriminate Hs].
    rewrite bind_Returned in Hs. injection Hs as <-.
    pose proof (GetSensors_decode_lookup _ _ _ _ _ E Hx) as Hj.
    destruct (Nat.eq_dec (Z.to_nat i) j) as [Heq|Hne].
    + exists (setId i (leftInRecord (Z.of_nat j) (l1 ++ l2)%list x)).
      rewrite Heq, list_lookup_alter_eq, Hj.
      split; [reflexivity|].
      assert (Hij : Z.of_nat j = i) by lia.
      rewrite (proj2 (Z.eqb_eq _ _) Hij). simpl.
      repeat split; try reflexivity. symmetry. exact Hij.
    + exists (leftInRecord (Z.of_nat j) (l1 ++ l2)%list x).
      rewrite list_lookup_alter_ne by exact Hne.
      split; [exact Hj|].
      assert (Hij : Z.of_nat j <> i) by lia.
      rewrite (proj2 (Z.eqb_neq _ _) Hij). simpl.
      repeat split; reflexivity.
  - intros sibling Hin Ha. rewrite Hdec.
    destruct (GetSensors_decode sensors (l1 ++ l2)%list) as [s|p] eqn:E; [|reflexivity].
    rewrite bind_Returned. f_equal.
    destruct (GetSensors_decode_sets_Id _ _ _ _ _ E Hin Ha ltac:(lia)) as (x & Hx & Hid).
    rewrite <- (Z2Nat.id i) at 1 by lia.
    apply (alter_setId_same s (Z.to_nat i) x Hx). lia.
Qed.

Lemma GetSensors_unknown_field_sets_only_Id_witness :
  exists s : list Sensor,
    GetSensors_decode [zeroSensor]
      [mkItem "G0.RaumTemp" "2086"; mkItem "G0.Foo" "1"; mkItem "G0.name" "Kitchen"]
      = Returned s /\
    exists x' : Sensor,
      s !! 0%nat = Some x' /\ Id x' = 0 /\ Name x' = "Kitchen" /\
      RoomTemperature x' = floatValueOf "2086".
Proof.
  exists [mkSensor 0 "Kitchen" (floatValueOf "2086") f32.zero 0 0].
  split; [reflexivity|].
  assert (Hunk : ~ In "Foo" knownFields)
    by (simpl; intros [H|[H|[H|[H|[H|[]]]]]]; discriminate H).
  assert (Hne : "Foo" <> "") by (intros H; discriminate H).
  destruct (GetSensors_unknown_field_sets_only_Id
              [mkItem "G0.RaumTemp" "2086"] [mkItem "G0.name" "Kitchen"]
              [zeroSensor] (mkItem "G0.Foo" "1") "0" "Foo" 0
              eq_refl eq_refl Hne eq_refl eq_refl ltac:(simpl; lia) Hunk)
    as (_ & _ & Hfields & _).
  destruct (Hfields [mkSensor 0 "Kitchen" (floatValueOf "2086") f32.zero 0 0]
              eq_refl 0%nat zeroSensor eq_refl)
    as (x' & Hx' & Hid & Hname & Hroom & _).
  exists x'. split; [exact Hx'|]. split; [exact Hid|].
  split; [exact Hname | exact Hroom].
Defined.




(** X7. What [GetSensors] returns, record by record: record [j] carries
    [Id = j] if some item of the response was addressed to [j] and 0 if none
    was, and each of its other fields holds the converted value of the last
    item that wrote that field of record [j], or the zero value if no item
    did.  Items addressed elsewhere, items whose name does not match and
    fields outside the known five leave no trace in the record. *)
Theorem GetSensors_records_from_last_items
    (marshal : readRequest -> string * error)
    (post : string -> string -> string -> postResult)
    (unmarshal : string -> option response)
    (managementURL : string) (sensorCount : Z)
    (req : readRequest) (resp : response) (sensors : list Sensor) :
  GetSensors_request sensorCount = Returned req ->
  readValues marshal post unmarshal managementURL req = (resp, None) ->
  GetSensors marshal post unmarshal managementURL sensorCount
    = Returned (sensors, None) ->
  forall j : nat, Z.of_nat j < sensorCount ->
    sensors !! j =
      Some (mkSensor
              (if addresses (Z.of_nat j) resp then Z.of_nat j else 0)
              (default "" (lastValue (Z.of_nat j) "name" resp))
              (default f32.zero
                 (floatValueOf <$> lastValue (Z.of_nat j) "RaumTemp" resp))
              (default f32.zero
                 (floatValueOf <$> lastValue (Z.of_nat j) "SollTemp" resp))
              (default 0 (intValueOf <$> lastValue (Z.of_nat j) "WeekProg" resp))
              (default 0 (intValueOf <$> lastValue (Z.of_nat j) "OPmode" resp))).
Proof.
  intros Hreq Hr H j Hj.
  rewrite (GetSensors_of_response _ _ _ _ _ _ _ Hreq Hr) in H.
  destruct (make sizeof_Sensor zeroSensor sensorCount) as [s0|p] eqn:Em;
    [|discriminate].
  apply make_Returned_inv in Em as (H0 & _ & ->).
  rewrite bind_Returned in H.
  destruct (GetSensors_decode _ resp) as [s|p] eqn:Hd; [|discriminate].
  rewrite bind_Returned in H. injection H as <-.
  apply (GetSensors_decode_lookup _ _ _ _ zeroSensor Hd).
  apply lookup_replicate_2. lia.
Qed.

Lemma GetSensors_records_from_last_items_witness :
  GetSensors (fun _ => ("", None)) (fun _ _ _ => Body "")
    (fun _ => Some [mkItem "G0.name" "Kitchen"; mkItem "G0.WeekProg" "2";
                    mkItem "bad" "x"; mkItem "G0.name" "Hall"])
    "http://roth" 2
  = Returned ([mkSensor 0 "Hall" f32.zero f32.zero 2 0; zeroSensor], None) /\
  [mkSensor 0 "Hall" f32.zero f32.zero 2 0; zeroSensor] !! 0%nat =
    Some (mkSensor 0 "Hall" f32.zero f32.zero 2 0).
Proof.
  split; [reflexivity|].
  exact (GetSensors_records_from_last_items (fun _ => ("", None))
           (fun _ _ _ => Body "")
           (fun _ => Some [mkItem "G0.name" "Kitchen"; mkItem "G0.WeekProg" "2";
                           mkItem "bad" "x"; mkItem "G0.name" "Hall"])
           "http://roth" 2 _ _
           [mkSensor 0 "Hall" f32.zero f32.zero 2 0; zeroSensor]
           eq_refl eq_refl eq_refl 0%nat ltac:(lia)).
Defined.

(** X8. The order of the items of a response does not matter as long as the
    items that write the same field of the same record carry the same
    value: a permutation of such a response decodes to the same slice.
    Only the five fields that the decoder assigns are concerned: items with
    any other field may differ freely. *)
Theorem GetSensors_decode_order_irrelevant
    (items items' : response) (sensors sensors' : list Sensor) :
  Permutation items items' ->
  (forall a b j field, In a items -> In b items -> In field knownFields ->
     writesTo j field a = true -> writesTo j field b = true ->
     itemValue a = itemValue b) ->
  GetSensors_decode sensors items = Returned sensors' ->
  GetSensors_decode sensors items' = Returned sensors'.
Proof.
  intros Hperm Hagree Hd.
  assert (Hsame : forall a, In a items <-> In a items').
  { intros a. split; apply Permutation_in; [exact Hperm | symmetry; exact Hperm]. }
  destruct (not_panics_Returned (GetSensors_decode sensors items')) as [s2 H2].
  { intros Hp. apply GetSensors_decode_panics_iff in Hp as (it & i & Hin & Ha & Hi).
    apply (Returned_not_panics _ _ Hd), GetSensors_decode_panics_iff.
    exists it, i. split; [apply Hsame; exact Hin | auto]. }
  rewrite H2. f_equal. symmetry.
  apply (GetSensors_decode_ext items items' sensors _ _ Hd H2).
  intros j x _. apply leftInRecord_same_items; assumption.
Qed.

Lemma GetSensors_decode_order_irrelevant_witness :
  GetSensors_decode [zeroSensor; zeroSensor]
    [mkItem "G0.Foo" "2"; mkItem "G1.name" "Loft"; mkItem "G0.Foo" "1";
     mkItem "G0.name" "Hall"]
  = Returned [mkSensor 0 "Hall" f32.zero f32.zero 0 0;
              mkSensor 1 "Loft" f32.zero f32.zero 0 0].
Proof.
  apply (GetSensors_decode_order_irrelevant
           [mkItem "G0.name" "Hall"; mkItem "G0.Foo" "1"; mkItem "G1.name" "Loft";
            mkItem "G0.Foo" "2"]
           [mkItem "G0.Foo" "2"; mkItem "G1.name" "Loft"; mkItem "G0.Foo" "1";
            mkItem "G0.name" "Hall"]
           [zeroSensor; zeroSensor]).
  - apply Permutation_rev.
  - intros a b j field Ha Hb Hf Hwa Hwb.
    apply writesTo_true in Hwa as [Hia Hfa], Hwb as [Hib Hfb].
    simpl in Ha, Hb.
    destruct Ha as [<-|[<-|[<-|[<-|[]]]]]; destruct Hb as [<-|[<-|[<-|[<-|[]]]]];
      try reflexivity; vm_compute in Hia, Hfa, Hib, Hfb; try congruence;
      injection Hfa as <-; simpl in Hf;
      destruct Hf as [H|[H|[H|[H|[H|[]]]]]]; discriminate H.
  - reflexivity.
Defined.

(** X9. Decoding is idempotent: applying a response once more to the slice
    it produced returns that slice unchanged. *)
Theorem GetSensors_decode_idempotent
    (items : response) (sensors sensors' : list Sensor) :
  GetSensors_decode sensors items = Returned sensors' ->
  GetSensors_decode sensors' items = Returned sensors'.
Proof.
  intros Hd.
  destruct (not_panics_Returned (GetSensors_decode sensors' items)) as [s2 H2].
  { intros Hp. apply GetSensors_decode_panics_iff in Hp as (it & i & Hin & Ha & Hi).
    apply (Returned_not_panics _ _ Hd), GetSensors_decode_panics_iff.
    exists it, i. rewrite <- (GetSensors_decode_length _ _ _ Hd). auto. }
  rewrite H2. f_equal. apply list_eq. intros j.
  destruct (sensors !! j) as [x|] eqn:Hx.
  - pose proof (GetSensors_decode_lookup _ _ _ _ _ Hd Hx) as Hx'.
    rewrite (GetSensors_decode_lookup _ _ _ _ _ H2 Hx'), Hx'.
    rewrite leftInRecord_twice. reflexivity.
  - apply lookup_ge_None in Hx.
    rewrite (proj2 (lookup_ge_None s2 j)), (proj2 (lookup_ge_None sensors' j));
      try reflexivity.
    + rewrite (GetSensors_decode_length _ _ _ Hd). exact Hx.
    + rewrite (GetSensors_decode_length _ _ _ H2),
        (GetSensors_decode_length _ _ _ Hd). exact Hx.
Qed.

Lemma GetSensors_decode_idempotent_witness :
  GetSensors_decode [mkSensor 0 "Hall" f32.zero f32.zero 2 0]
    [mkItem "G0.name" "Kitchen"; mkItem "G0.WeekProg" "2"; mkItem "G0.name" "Hall"]
  = Returned [mkSensor 0 "Hall" f32.zero f32.zero 2 0].
Proof.
  exact (GetSensors_decode_idempotent
           [mkItem "G0.name" "Kitchen"; mkItem "G0.WeekProg" "2"; mkItem "G0.name" "Hall"]
           [zeroSensor] [mkSensor 0 "Hall" f32.zero f32.zero 2 0] eq_refl).
Defined.

(** ** What the setters write and the decoder reads *)

Section WriteRead.

Import strconv decimal regexp.





Lemma isDigits_isDecimal_minus (s : string) :
  isDigits s = true -> isDecimal (String "-"%char s) = true.
Proof. intros H. exact H. Qed.

End WriteRead.



(** X11. The value that [SetTargetTemperature] puts in the address is a
    decimal integer numeral (digits after an optional minus sign, no point
    and no exponent) whenever the product of the temperature with 100 is a
    finite number or a zero; when that product is a NaN or an infinity
    (the temperature is one, or the product overflows) it is the text
    [NaN], [+Inf] or [-Inf], and the command is sent all the same. *)
Theorem SetTargetTemperature_value_numeral_or_not_a_number
    (targetTemperature : float32) :
  match f32.mul targetTemperature (f32.of_int 100) with
  | S754_nan => SetTargetTemperature_value targetTemperature = "NaN"
  | S754_infinity s =>
      SetTargetTemperature_value targetTemperature = (if s then "-Inf" else "+Inf")
  | _ => decimal.isDecimal (SetTargetTemperature_value targetTemperature) = true
  end.
Proof.
  unfold SetTargetTemperature_value.
  destruct (f32.mul targetTemperature (f32.of_int 100)) as [s|s| |s m e]; simpl.
  - destruct s; reflexivity.
  - destruct s; reflexivity.
  - reflexivity.
  - destruct (roundHalfEven_nearest m e) as [Hn _].
    destruct (Itoa_nonneg (f32.roundHalfEven m e) Hn) as [Hd _].
    destruct s; simpl.
    + exact Hd.
    + apply isDigits_isDecimal. exact Hd.
Qed.

(** X12. The decoder cannot place the answers for the sensors from 128 on,
    although the request asks for them: the answer to [G<i>.<field>] with
    [i >= 128] is decoded exactly as the answer to [G127.<field>], so it
    rewrites sensor 127 (or panics when there are at most 127 sensors). *)
Theorem answers_from_128_on_land_on_127
    (sensors : list Sensor) (i : Z) (field value : string) :
  128 <= i -> In field knownFields ->
  GetSensors_item sensors (mkItem (requestName i field) value)
    = GetSensors_item sensors (mkItem (requestName 127 field) value).
Proof.
  intros Hi Hfield.
  rewrite (GetSensors_item_matched sensors (mkItem (requestName i field) value)
             (strconv.Itoa i) field)
    by (apply requestName_matches; [lia | exact Hfield]).
  rewrite (GetSensors_item_matched sensors (mkItem (requestName 127 field) value)
             (strconv.Itoa 127) field)
    by (apply requestName_matches; [lia | exact Hfield]).
  destruct (Itoa_nonneg i ltac:(lia)) as [Hd Hv].
  rewrite (ParseInt_index _ Hd), Hv.
  destruct (Z.leb_spec i 127); [lia|]. reflexivity.
Qed.

Lemma answers_from_128_on_land_on_127_witness :
  GetSensors_item (replicate 200 zeroSensor) (mkItem "G150.name" "Attic")
    = GetSensors_item (replicate 200 zeroSensor) (mkItem "G127.name" "Attic").
Proof.
  exact (answers_from_128_on_land_on_127 (replicate 200 zeroSensor) 150 "name"
           "Attic" ltac:(lia) ltac:(simpl; tauto)).
Defined.

(** ** Every wire temperature *)

Section WireTemperatures.

Import strconv decimal regexp.

(** The check of all the positive wire integers up to 32768, by
    evaluation. *)
Lemma wireCheck_all : wireCheck (f32.of_int 100) (Z.to_nat 32768) 1 0 = true.
Proof. vm_compute. reflexivity. Qed.

Lemma wireCheck_step c n w prev :
  wireCheck c (S n) w prev = true ->
  exists m e m' e',
    decodeTemperature c w = S754_finite false m e /\
    isNearestb w 100 (S754_finite false m e) = true /\
    prev < rank32 (S754_finite false m e) /\
    f32.mul (S754_finite false m e) c = S754_finite false m' e' /\
    f32.roundHalfEven m' e' = w /\
    wireCheck c n (w + 1) (rank32 (S754_finite false m e)) = true.
Proof.
  cbn [wireCheck].
  destruct (decodeTemperature c w) as [s|s| |[|] m e];
    try (intros H; discriminate H).
  intros [[[Hn Hp]%andb_true_iff Hm]%andb_true_iff Hrest]%andb_true_iff.
  destruct (f32.mul (S754_finite false m e) c) as [s'|s'| |s' m' e'] eqn:Em;
    try discriminate.
  destruct s'; [discriminate|].
  exists m, e, m', e'. apply Z.ltb_lt in Hp. apply Z.eqb_eq in Hm.
  split; [reflexivity|]. split; [exact Hn|]. split; [exact Hp|].
  split; [exact Em|]. split; [exact Hm | exact Hrest].
Qed.

(** What the pass establishes for each integer it visits. *)
Lemma wireCheck_sound c n : forall w prev,
  wireCheck c n w prev = true ->
  forall k : nat, (k < n)%nat ->
    exists m e m' e',
      decodeTemperature c (w + Z.of_nat k) = S754_finite false m e /\
      isNearestb (w + Z.of_nat k) 100 (S754_finite false m e) = true /\
      prev < rank32 (S754_finite false m e) /\
      f32.mul (S754_finite false m e) c = S754_finite false m' e' /\
      f32.roundHalfEven m' e' = w + Z.of_nat k.
Proof.
  induction n as [|n IH]; intros w prev H k Hk; [lia|].
  apply wireCheck_step in H as (m & e & m' & e' & Hd & Hn & Hp & Hm & Hr & Hrest).
  destruct k as [|k].
  - replace (w + Z.of_nat 0) with w by lia. exists m, e, m', e'.
    split; [exact Hd|]. split; [exact Hn|]. split; [exact Hp|].
    split; [exact Hm | exact Hr].
  - destruct (IH _ _ Hrest k ltac:(lia)) as (m1 & e1 & m1' & e1' & H1 & H2 & H3 & H4 & H5).
    replace (w + Z.of_nat (S k)) with (w + 1 + Z.of_nat k) by lia.
    exists m1, e1, m1', e1'. repeat split; try assumption. lia.
Qed.

(** The pass from a later integer on, with the rank of the one before. *)
Lemma wireCheck_suffix c n : forall w prev (j : nat),
  wireCheck c n w prev = true -> (j < n)%nat ->
  wireCheck c (n - S j) (w + Z.of_nat (S j))
    (rank32 (decodeTemperature c (w + Z.of_nat j))) = true.
Proof.
  induction n as [|n IH]; intros w prev j H Hj; [lia|].
  apply wireCheck_step in H as (m & e & m' & e' & Hd & Hn & Hp & Hm & Hr & Hrest).
  destruct j as [|j].
  - replace (w + Z.of_nat 0) with w by lia. rewrite Hd.
    replace (S n - 1)%nat with n by lia.
    replace (w + Z.of_nat 1) with (w + 1) by lia. exact Hrest.
  - replace (S n - S (S j))%nat with (n - S j)%nat by lia.
    replace (w + Z.of_nat (S (S j))) with (w + 1 + Z.of_nat (S j)) by lia.
    replace (w + Z.of_nat (S j)) with (w + 1 + Z.of_nat j) by lia.
    apply (IH _ _ _ Hrest). lia.
Qed.

Lemma decodeTemperature_0 : decodeTemperature (f32.of_int 100) 0 = S754_zero false.
Proof. reflexivity. Qed.

(** Every positive wire integer up to 32768. *)
Lemma positive_wire (w : Z) :
  1 <= w <= 32768 ->
  exists m e m' e',
    decodeTemperature (f32.of_int 100) w = S754_finite false m e /\
    isNearestb w 100 (S754_finite false m e) = true /\
    f32.mul (S754_finite false m e) (f32.of_int 100) = S754_finite false m' e' /\
    f32.roundHalfEven m' e' = w.
Proof.
  intros Hw.
  destruct (wireCheck_sound _ _ _ _ wireCheck_all (Z.to_nat (w - 1)) ltac:(lia))
    as (m & e & m' & e' & H1 & H2 & _ & H4 & H5).
  replace (1 + Z.of_nat (Z.to_nat (w - 1))) with w in H1, H2, H5 by lia.
  exists m, e, m', e'. auto.
Qed.

(** The ranks of the decoded temperatures grow with the wire integer. *)
Lemma rank32_increasing_nonneg (a b : Z) :
  0 <= a < b -> b <= 32768 ->
  rank32 (decodeTemperature (f32.of_int 100) a)
    < rank32 (decodeTemperature (f32.of_int 100) b).
Proof.
  intros Hab Hb.
  destruct (Z.eq_dec a 0) as [->|Ha].
  - destruct (wireCheck_sound _ _ _ _ wireCheck_all (Z.to_nat (b - 1)) ltac:(lia))
      as (m & e & m' & e' & H1 & _ & H3 & _).
    replace (1 + Z.of_nat (Z.to_nat (b - 1))) with b in H1 by lia.
    rewrite H1, decodeTemperature_0. exact H3.
  - pose proof (wireCheck_suffix _ _ _ _ (Z.to_nat (a - 1)) wireCheck_all ltac:(lia))
      as Hs.
    replace (1 + Z.of_nat (Z.to_nat (a - 1))) with a in Hs by lia.
    replace (1 + Z.of_nat (S (Z.to_nat (a - 1)))) with (a + 1) in Hs by lia.
    destruct (wireCheck_sound _ _ _ _ Hs (Z.to_nat (b - a - 1)) ltac:(lia))
      as (m & e & m' & e' & H1 & _ & H3 & _).
    replace (a + 1 + Z.of_nat (Z.to_nat (b - a - 1))) with b in H1 by lia.
    rewrite H1. exact H3.
Qed.

End WireTemperatures.

Section SignedWireTemperatures.

Import strconv decimal regexp.

Lemma SFopp_involutive (x : float32) : SFopp (SFopp x) = x.
Proof. destruct x as [s|s| |s m e]; simpl; try rewrite negb_involutive; reflexivity. Qed.

(** Rounding does not look at the sign. *)
Lemma binary_round_aux_sign (s : bool) mx ex lx :
  binary_round_aux f32.prec f32.emax (negb s) mx ex lx
    = SFopp (binary_round_aux f32.prec f32.emax s mx ex lx).
Proof.
  unfold binary_round_aux.
  destruct (shr_fexp f32.prec f32.emax mx ex lx) as [mrs' e'].
  destruct (shr_fexp f32.prec f32.emax _ e' loc_Exact) as [mrs'' e''].
  destruct (shr_m mrs''); try reflexivity.
  destruct (_ <=? _); reflexivity.
Qed.

Lemma of_int_neg (q : positive) :
  f32.of_int (Z.neg q) = SFopp (f32.of_int (Z.pos q)).
Proof.
  unfold f32.of_int, binary_normalize, binary_round.
  destruct (shl_align q 0 _) as [mz ez].
  apply (binary_round_aux_sign false).
Qed.

Lemma div_opp (x : float32) my ey :
  f32.div (SFopp x) (S754_finite false my ey)
    = SFopp (f32.div x (S754_finite false my ey)).
Proof.
  destruct x as [s|s| |s m e]; simpl; try reflexivity.
  - destruct s; reflexivity.
  - destruct s; reflexivity.
  - unfold f32.div, SFdiv.
    destruct (SFdiv_core_binary f32.prec f32.emax (Z.pos m) e (Z.pos my) ey)
      as [[mz ez] lz].
    rewrite !xorb_false_r. apply binary_round_aux_sign.
Qed.

Lemma mul_opp (x : float32) my ey :
  f32.mul (SFopp x) (S754_finite false my ey)
    = SFopp (f32.mul x (S754_finite false my ey)).
Proof.
  destruct x as [s|s| |s m e]; simpl; try reflexivity.
  - destruct s; reflexivity.
  - destruct s; reflexivity.
  - unfold f32.mul, SFmul. rewrite !xorb_false_r. apply binary_round_aux_sign.
Qed.

Lemma of_int_100 : f32.of_int 100 = S754_finite false 13107200 (-17).
Proof. reflexivity. Qed.

(** The decoder is odd: the temperature of [- w] is the opposite of that
    of [w]. *)
Lemma decodeTemperature_neg (q : positive) :
  decodeTemperature (f32.of_int 100) (Z.neg q)
    = SFopp (decodeTemperature (f32.of_int 100) (Z.pos q)).
Proof.
  unfold decodeTemperature. rewrite of_int_neg, of_int_100. apply div_opp.
Qed.

Lemma rank32_opp (x : float32) : rank32 (SFopp x) = - rank32 x.
Proof. destruct x as [s|s| |s m e]; simpl; try reflexivity. destruct s; simpl; lia. Qed.

(** The ranks of the decoded temperatures grow with the wire integer, over
    the whole 16-bit range. *)
Lemma rank32_increasing (a b : Z) :
  -32768 <= a -> a < b -> b <= 32768 ->
  rank32 (decodeTemperature (f32.of_int 100) a)
    < rank32 (decodeTemperature (f32.of_int 100) b).
Proof.
  intros Ha Hab Hb.
  destruct a as [|p|p]; destruct b as [|q|q]; try lia.
  - apply rank32_increasing_nonneg; lia.
  - apply rank32_increasing_nonneg; lia.
  - rewrite decodeTemperature_neg, rank32_opp.
    pose proof (rank32_increasing_nonneg 0 (Z.pos p) ltac:(lia) ltac:(lia)) as H.
    rewrite decodeTemperature_0 in *. simpl rank32 in *. lia.
  - rewrite decodeTemperature_neg, rank32_opp.
    pose proof (rank32_increasing_nonneg 0 (Z.pos p) ltac:(lia) ltac:(lia)) as H1.
    pose proof (rank32_increasing_nonneg 0 (Z.pos q) ltac:(lia) ltac:(lia)) as H2.
    rewrite decodeTemperature_0 in *. simpl rank32 in *. lia.
  - rewrite !decodeTemperature_neg, !rank32_opp.
    pose proof (rank32_increasing_nonneg (Z.pos q) (Z.pos p) ltac:(lia) ltac:(lia)).
    lia.
Qed.

Lemma digits2_pos_bound (m : positive) : Z.pos m < 2 ^ Z.pos (digits2_pos m).
Proof.
  induction m as [m IH|m IH|]; simpl digits2_pos.
  - rewrite Pos2Z.inj_succ, Z.pow_succ_r by lia. lia.
  - rewrite Pos2Z.inj_succ, Z.pow_succ_r by lia. lia.
  - reflexivity.
Qed.

(** A mantissa and an exponent that make a binary32 number. *)
Lemma bounded_range (m : positive) (e : Z) :
  bounded f32.prec f32.emax m e = true -> -149 <= e /\ Z.pos m < 16777216.
Proof.
  unfold bounded, canonical_mantissa, fexp, emin, f32.prec, f32.emax.
  intros [Hc _]%andb_true_iff. apply Z.eqb_eq in Hc.
  pose proof (digits2_pos_bound m) as Hd.
  assert (Hle : Z.pos (digits2_pos m) <= 24) by lia.
  split; [lia|].
  assert (2 ^ Z.pos (digits2_pos m) <= 2 ^ 24)
    by (apply Z.pow_le_mono_r; lia).
  change (2 ^ 24) with 16777216 in *. lia.
Qed.

(** On the binary32 numbers and zeros, [<] is the order of the ranks. *)
Lemma ltb_rank32 (x y : float32) :
  valid_binary f32.prec f32.emax x = true ->
  valid_binary f32.prec f32.emax y = true ->
  match x with S754_nan | S754_infinity _ => False | _ => True end ->
  match y with S754_nan | S754_infinity _ => False | _ => True end ->
  f32.ltb x y = (rank32 x <? rank32 y).
Proof.
  unfold f32.ltb, SFltb.
  destruct x as [sx|sx| |sx mx ex]; destruct y as [sy|sy| |sy my ey];
    simpl valid_binary; intros Hx Hy Fx Fy; try contradiction.
  - reflexivity.
  - apply bounded_range in Hy as [He Hm]. simpl.
    destruct sy; simpl; symmetry; [apply Z.ltb_ge | apply Z.ltb_lt]; lia.
  - apply bounded_range in Hx as [He Hm]. simpl.
    destruct sx; simpl; symmetry; [apply Z.ltb_lt | apply Z.ltb_ge]; lia.
  - apply bounded_range in Hx as [Hex Hmx].
    apply bounded_range in Hy as [Hey Hmy].
    simpl. rewrite !Pos.compare_cont_spec. simpl Pos.switch_Eq.
    destruct sx, sy; simpl.
    + destruct (Z.compare_spec ex ey) as [->|Hlt|Hgt].
      * rewrite Pos.compare_antisym.
        destruct (Pos.compare_spec my mx) as [->|H|H]; simpl; symmetry;
          [apply Z.ltb_ge | apply Z.ltb_lt | apply Z.ltb_ge]; lia.
      * symmetry. apply Z.ltb_ge. lia.
      * symmetry. apply Z.ltb_lt. lia.
    + symmetry. apply Z.ltb_lt. lia.
    + symmetry. apply Z.ltb_ge. lia.
    + destruct (Z.compare_spec ex ey) as [->|Hlt|Hgt].
      * destruct (Pos.compare_spec mx my) as [->|H|H]; simpl; symmetry;
          [apply Z.ltb_ge | apply Z.ltb_lt | apply Z.ltb_ge]; lia.
      * symmetry. apply Z.ltb_lt. lia.
      * symmetry. apply Z.ltb_ge. lia.
Qed.

End SignedWireTemperatures.

Section WireFacts.

Import strconv decimal regexp.

Lemma isNearestb_true num den (x : float32) :
  isNearestb num den x = true -> f32.isNearest num den x.
Proof.
  destruct x as [s|s| |s m e]; simpl; try discriminate.
  - apply Z.eqb_eq.
  - intros [Hb Hn]%andb_true_iff. split; [exact Hb|].
    destruct (e <? 0); apply Z.leb_le in Hn; exact Hn.
Qed.

Lemma isNearestb_opp (q : positive) (m : positive) (e : Z) :
  isNearestb (Z.pos q) 100 (S754_finite false m e) = true ->
  isNearestb (Z.neg q) 100 (S754_finite true m e) = true.
Proof.
  simpl. intros [Hb Hn]%andb_true_iff. rewrite Hb. simpl.
  destruct (e <? 0); apply Z.leb_le in Hn; apply Z.leb_le; lia.
Qed.

Lemma floatValueOf_fits (v : string) :
  fits 16 v = true ->
  floatValueOf v = decodeTemperature (f32.of_int 100) (decimalValue v) /\
  -32768 <= decimalValue v <= 32767.
Proof.
  intros Hf. unfold fits in Hf.
  apply andb_true_iff in Hf as [[Hd Hlo]%andb_true_iff Hhi].
  apply Z.leb_le in Hlo. apply Z.ltb_lt in Hhi.
  assert (Hp : ParseInt v 10 16 = (decimalValue v, None)).
  { apply (ParseInt_ok_iff 16 ltac:(auto)). auto. }
  unfold floatValueOf. rewrite Hp. split; [reflexivity|].
  change (2 ^ (16 - 1)) with 32768 in *. lia.
Qed.

(** All that is known of the temperature decoded from one wire integer. *)
Lemma wire_facts (w : Z) :
  -32768 <= w <= 32768 ->
  valid_binary f32.prec f32.emax (decodeTemperature (f32.of_int 100) w) = true /\
  match decodeTemperature (f32.of_int 100) w with
  | S754_nan | S754_infinity _ => False
  | _ => True
  end /\
  isNearestb w 100 (decodeTemperature (f32.of_int 100) w) = true /\
  SetTargetTemperature_value (decodeTemperature (f32.of_int 100) w) = Itoa w.
Proof.
  intros Hw. destruct w as [|q|q].
  - repeat split; reflexivity.
  - destruct (positive_wire (Z.pos q) ltac:(lia))
      as (m & e & m' & e' & Hd & Hn & Hm & Hr).
    rewrite Hd. split; [|split; [exact I|split; [exact Hn|]]].
    + simpl in Hn. apply andb_true_iff in Hn as [Hb _]. exact Hb.
    + unfold SetTargetTemperature_value. rewrite Hm. simpl. rewrite Hr. reflexivity.
  - destruct (positive_wire (Z.pos q) ltac:(lia))
      as (m & e & m' & e' & Hd & Hn & Hm & Hr).
    rewrite decodeTemperature_neg, Hd. simpl SFopp.
    split; [|split; [exact I|split; [apply isNearestb_opp; exact Hn|]]].
    + simpl in Hn. apply andb_true_iff in Hn as [Hb _]. exact Hb.
    + unfold SetTargetTemperature_value.
      change (S754_finite true m e) with (SFopp (S754_finite false m e)).
      rewrite of_int_100, mul_opp, <- of_int_100, Hm. simpl.
      rewrite Hr. reflexivity.
Qed.

End WireFacts.

(** X13. A wire temperature survives the way through the domain value:
    when a value parses as a 16-bit integer, the temperature decoded from
    it (the integer divided by 100 in [float32]) is written back by
    [SetTargetTemperature] as that same integer, in its plain decimal
    notation. *)
Theorem wire_temperature_round_trip (value : string) :
  decimal.fits 16 value = true ->
  SetTargetTemperature_value (floatValueOf value)
    = strconv.Itoa (decimal.decimalValue value).
Proof.
  intros Hf. destruct (floatValueOf_fits value Hf) as [-> Hr].
  apply wire_facts. lia.
Qed.

Lemma wire_temperature_round_trip_witness :
  SetTargetTemperature_value (floatValueOf "2086") = "2086" /\
  SetTargetTemperature_value (floatValueOf "-0550") = "-550".
Proof.
  split.
  - exact (wire_temperature_round_trip "2086" eq_refl).
  - exact (wire_temperature_round_trip "-0550" eq_refl).
Defined.

(** X14. The temperature decoded from a value that parses as a 16-bit
    integer [w] is a binary32 number (or zero) nearest to [w / 100]: the
    division by 100 loses no more than the rounding of the result. *)
Theorem decoded_temperature_nearest_to_hundredth (value : string) :
  decimal.fits 16 value = true ->
  f32.isNearest (decimal.decimalValue value) 100 (floatValueOf value).
Proof.
  intros Hf. destruct (floatValueOf_fits value Hf) as [-> Hr].
  apply isNearestb_true. apply wire_facts. lia.
Qed.

Lemma decoded_temperature_nearest_to_hundredth_witness :
  f32.isNearest 2086 100 (floatValueOf "2086").
Proof.
  exact (decoded_temperature_nearest_to_hundredth "2086" eq_refl).
Defined.

(** X15. Decoding keeps the order of the wire temperatures, so the valve
    state of a decoded sensor is what the wire integers say: for a sensor
    whose room and target temperatures were decoded from values that parse as
    16-bit integers, the valve is open exactly when the room integer is less
    than the target integer. *)
Theorem valve_state_from_wire_values (s : Sensor) (room target : string) :
  decimal.fits 16 room = true -> decimal.fits 16 target = true ->
  RoomTemperature s = floatValueOf room ->
  TargetTemperature s = floatValueOf target ->
  (GetValveState s = ValveOpen <->
     decimal.decimalValue room < decimal.decimalValue target) /\
  (GetValveValue s = 1 <->
     decimal.decimalValue room < decimal.decimalValue target).
Proof.
  intros Hr Ht HR HT.
  destruct (floatValueOf_fits room Hr) as [Er Rr].
  destruct (floatValueOf_fits target Ht) as [Et Rt].
  destruct (wire_facts (decimal.decimalValue room) ltac:(lia)) as (Vr & Fr & _).
  destruct (wire_facts (decimal.decimalValue target) ltac:(lia)) as (Vt & Ft & _).
  assert (Hlt : f32.ltb (RoomTemperature s) (TargetTemperature s) = true <->
                decimal.decimalValue room < decimal.decimalValue target).
  { rewrite HR, HT, Er, Et, (ltb_rank32 _ _ Vr Vt Fr Ft), Z.ltb_lt.
    split.
    - intros Hrank.
      destruct (Z_lt_le_dec (decimal.decimalValue room) (decimal.decimalValue target))
        as [H|H]; [exact H|].
      destruct (Z.eq_dec (decimal.decimalValue room) (decimal.decimalValue target))
        as [Heq|Hne]; [rewrite Heq in Hrank; lia|].
      pose proof (rank32_increasing (decimal.decimalValue target)
                    (decimal.decimalValue room) ltac:(lia) ltac:(lia) ltac:(lia)).
      lia.
    - intros H. apply rank32_increasing; lia. }
  unfold GetValveState, GetValveValue.
  destruct (f32.ltb (RoomTemperature s) (TargetTemperature s)).
  - split; split; intros _; try reflexivity; apply Hlt; reflexivity.
  - split; split; intros H; try discriminate; apply Hlt in H; discriminate.
Qed.

Lemma valve_state_from_wire_values_witness :
  GetValveState (mkSensor 0 "Kitchen" (floatValueOf "2086") (floatValueOf "2100") 0 0)
    = ValveOpen <-> decimal.decimalValue "2086" < decimal.decimalValue "2100".
Proof.
  exact (proj1 (valve_state_from_wire_values
                  (mkSensor 0 "Kitchen" (floatValueOf "2086") (floatValueOf "2100") 0 0)
                  "2086" "2100" eq_refl eq_refl eq_refl eq_refl)).
Defined.

(** ** An answer to every name of the request *)

Section HonestAnswer.

Import strconv decimal regexp.

Lemma In_requestNames (n : nat) (name : string) :
  In name (flat_map (fun k => requestNames (Z.of_nat k)) (seq 0 n)) <->
  exists (k : nat) (field : string),
    (k < n)%nat /\ In field knownFields /\ name = requestName (Z.of_nat k) field.
Proof.
  rewrite in_flat_map. split.
  - intros (k & Hk & Hin). apply in_seq in Hk. unfold requestNames in Hin.
    apply in_map_iff in Hin as (field & <- & Hf).
    exists k, field. repeat split; [lia | exact Hf].
  - intros (k & field & Hk & Hf & ->). exists k. split; [apply in_seq; lia|].
    unfold requestNames. apply in_map. exact Hf.
Qed.

Lemma writesTo_requestName (i j : Z) (g f value : string) :
  0 <= i <= 127 -> In g knownFields ->
  writesTo j f (mkItem (requestName i g) value) = (i =? j) && String.eqb g f.
Proof.
  intros Hi Hg. unfold writesTo, addressedField.
  rewrite requestName_addressedIndex by assumption.
  simpl itemName. rewrite requestName_matches by (assumption || lia).
  reflexivity.
Qed.

(** When every item that writes a field of a record carries the value [v]
    and there is such an item, [v] is what the response leaves there. *)
Lemma lastValue_unique j f (l : response) (v : string) :
  (exists a, In a l /\ writesTo j f a = true) ->
  (forall a, In a l -> writesTo j f a = true -> itemValue a = v) ->
  lastValue j f l = Some v.
Proof.
  intros (a & Hin & Hw) Hall.
  destruct (lastValue j f l) as [v'|] eqn:E.
  - apply lastValue_Some_In in E as (b & Hb & Hwb & <-).
    f_equal. apply Hall; assumption.
  - rewrite (lastValue_None_In _ _ _ a E Hin) in Hw. discriminate.
Qed.

Variable answer : string -> string.

Lemma In_answers (n : nat) (a : responseItem) :
  In a (map (fun name => mkItem name (answer name))
          (flat_map (fun k => requestNames (Z.of_nat k)) (seq 0 n))) <->
  exists (k : nat) (field : string),
    (k < n)%nat /\ In field knownFields /\
    a = mkItem (requestName (Z.of_nat k) field)
               (answer (requestName (Z.of_nat k) field)).
Proof.
  rewrite in_map_iff. split.
  - intros (name & <- & Hin). apply In_requestNames in Hin as (k & f & Hk & Hf & ->).
    exists k, f. auto.
  - intros (k & f & Hk & Hf & ->). eexists. split; [reflexivity|].
    apply In_requestNames. exists k, f. auto.
Qed.

Lemma lastValue_answers (n j : nat) (f : string) :
  (n <= 128)%nat -> (j < n)%nat -> In f knownFields ->
  lastValue (Z.of_nat j) f
    (map (fun name => mkItem name (answer name))
       (flat_map (fun k => requestNames (Z.of_nat k)) (seq 0 n)))
  = Some (answer (requestName (Z.of_nat j) f)).
Proof.
  intros Hn Hj Hf. apply lastValue_unique.
  - exists (mkItem (requestName (Z.of_nat j) f) (answer (requestName (Z.of_nat j) f))).
    split; [apply In_answers; exists j, f; auto|].
    rewrite writesTo_requestName by (assumption || lia).
    rewrite Z.eqb_refl, String.eqb_refl. reflexivity.
  - intros a (k & g & Hk & Hg & ->)%In_answers.
    rewrite writesTo_requestName by (assumption || lia).
    intros [Hkj Hgf]%andb_true_iff.
    apply Z.eqb_eq in Hkj. apply String.eqb_eq in Hgf.
    apply Nat2Z.inj in Hkj. subst. reflexivity.
Qed.

Lemma addresses_answers (n j : nat) :
  (n <= 128)%nat -> (j < n)%nat ->
  addresses (Z.of_nat j)
    (map (fun name => mkItem name (answer name))
       (flat_map (fun k => requestNames (Z.of_nat k)) (seq 0 n))) = true.
Proof.
  intros Hn Hj. apply addresses_In.
  exists (mkItem (requestName (Z.of_nat j) "name")
                 (answer (requestName (Z.of_nat j) "name"))).
  split.
  - apply In_answers. exists j, "name". repeat split; [exact Hj | simpl; tauto].
  - apply requestName_addressedIndex; [lia | simpl; tauto].
Qed.

Lemma decode_answers_returns (n : nat) :
  (n <= 128)%nat ->
  ~ panics (GetSensors_decode (replicate n zeroSensor)
              (map (fun name => mkItem name (answer name))
                 (flat_map (fun k => requestNames (Z.of_nat k)) (seq 0 n)))).
Proof.
  intros Hn Hp.
  apply GetSensors_decode_panics_iff in Hp as (a & i & Hin & Ha & Hi).
  apply In_answers in Hin as (k & g & Hk & Hg & ->).
  rewrite requestName_addressedIndex in Ha by (assumption || lia).
  injection Ha as <-. rewrite length_replicate in Hi. lia.
Qed.

End HonestAnswer.

(** X16. The whole read for a controller that answers every name it was
    asked for, with up to 128 sensors: [GetSensors] does not panic and
    returns, for each index [i] below [sensorCount], the sensor with
    [Id = i], the answer to [G<i>.name] as its name, the answers to
    [G<i>.RaumTemp] and [G<i>.SollTemp] converted to temperatures, and the
    answers to [G<i>.WeekProg] and [G<i>.OPmode] converted to integers. *)
Theorem GetSensors_of_answered_request
    (marshal : readRequest -> string * error)
    (post : string -> string -> string -> postResult)
    (unmarshal : string -> option response)
    (managementURL : string) (sensorCount : Z)
    (req : readRequest) (answer : string -> string) :
  0 <= sensorCount <= 128 ->
  GetSensors_request sensorCount = Returned req ->
  readValues marshal post unmarshal managementURL req
    = (map (fun name => mkItem name (answer name)) req, None) ->
  GetSensors marshal post unmarshal managementURL sensorCount =
    Returned
      (map (fun k : nat =>
              let i := Z.of_nat k in
              mkSensor i
                (answer (requestName i "name"))
                (floatValueOf (answer (requestName i "RaumTemp")))
                (floatValueOf (answer (requestName i "SollTemp")))
                (intValueOf (answer (requestName i "WeekProg")))
                (intValueOf (answer (requestName i "OPmode"))))
           (seq 0 (Z.to_nat sensorCount)),
       None).
Proof.
  intros Hn Hreq Hr.
  rewrite (GetSensors_of_response _ _ _ _ _ _ _ Hreq Hr).
  rewrite GetSensors_request_eq in Hreq
    by (unfold sizeof_readRequestItem, maxAlloc; lia).
  injection Hreq as <-.
  rewrite make_in by (unfold sizeof_Sensor, maxAlloc; lia).
  rewrite bind_Returned.
  set (n := Z.to_nat sensorCount) in *.
  assert (Hn' : (n <= 128)%nat) by lia.
  destruct (not_panics_Returned _ (decode_answers_returns answer n Hn')) as [s Hs].
  rewrite Hs, bind_Returned. do 2 f_equal.
  apply list_eq. intros j.
  destruct (Nat.lt_ge_cases j n) as [Hj|Hj].
  - rewrite (GetSensors_decode_lookup _ _ _ _ zeroSensor Hs)
      by (apply lookup_replicate_2; exact Hj).
    rewrite list_lookup_fmap, lookup_seq_lt by exact Hj. simpl. f_equal.
    unfold leftInRecord.
    rewrite addresses_answers by assumption.
    rewrite !lastValue_answers by (try assumption; simpl; tauto).
    reflexivity.
  - rewrite (proj2 (lookup_ge_None s j)).
    + symmetry. apply lookup_ge_None. rewrite length_map, length_seq. exact Hj.
    + rewrite (GetSensors_decode_length _ _ _ Hs), length_replicate. exact Hj.
Qed.

Lemma GetSensors_of_answered_request_witness :
  GetSensors (fun _ => ("", None)) (fun _ _ _ => Body "")
    (fun _ => Some (map (fun name => mkItem name "7")
                       ["G0.RaumTemp"; "G0.SollTemp"; "G0.name"; "G0.WeekProg";
                        "G0.OPmode"]))
    "http://roth" 1
  = Returned ([mkSensor 0 "7" (floatValueOf "7") (floatValueOf "7") 7 7], None).
Proof.
  exact (GetSensors_of_answered_request (fun _ => ("", None)) (fun _ _ _ => Body "")
           (fun _ => Some (map (fun name => mkItem name "7")
                             ["G0.RaumTemp"; "G0.SollTemp"; "G0.name"; "G0.WeekProg";
                              "G0.OPmode"]))
           "http://roth" 1 _ (fun _ => "7") ltac:(lia) eq_refl eq_refl).
Defined.


